(** * AE-like rule elements (src/module/rules/rule-element/ae-like.ts)

    A shallow embedding of [AELikeRuleElement]: its constructor (priority
    defaulting and validation), the three phase hooks, [applyAELike],
    [logChange] and [warn], followed by the properties of the change
    directives that the specification states about them.

    JavaScript values are an inductive type, numbers are IEEE 754 binary64
    (Rocq's primitive floats), the actor is passed explicitly as state, and the
    functions the file imports but does not define (Foundry's [getProperty] and
    [setProperty], the base class's resolvers, the actor's roll options) are
    the members of a type class, so every theorem holds for any host. *)

From Stdlib Require Import ZArith Floats Ascii String List Bool.
From stdpp Require Import gmap strings list.

Local Open Scope string_scope.
Local Open Scope list_scope.
Local Set Warnings "-register-all".

(** ** JavaScript values *)

(** The values a rule element's JSON source and the actor's data can hold. *)
Inductive JsValue : Type :=
| JUndefined
| JNull
| JBool (b : bool)
| JNum (n : float)
| JStr (s : string)
| JArr (elems : list JsValue)
| JObj (members : list (string * JsValue)).

(** [typeof v] *)
Definition typeof (v : JsValue) : string :=
  match v with
  | JUndefined => "undefined"
  | JNull => "object"
  | JBool _ => "boolean"
  | JNum _ => "number"
  | JStr _ => "string"
  | JArr _ => "object"
  | JObj _ => "object"
  end.

(** [typeof v === t] *)
Definition typeof_is (v : JsValue) (t : string) : bool := String.eqb (typeof v) t.

(** [v === undefined] *)
Definition is_undefined (v : JsValue) : bool :=
  match v with JUndefined => true | _ => false end.

(** [v === null] *)
Definition is_null (v : JsValue) : bool :=
  match v with JNull => true | _ => false end.

(** [v === "literal"], strict equality with a string literal *)
Definition str_is (v : JsValue) (s : string) : bool :=
  match v with JStr t => String.eqb t s | _ => false end.

(** [a ?? b] *)
Definition nullish (a b : JsValue) : JsValue :=
  match a with JUndefined | JNull => b | _ => a end.

(** [Array.isArray(v)] *)
Definition isArray (v : JsValue) : bool :=
  match v with JArr _ => true | _ => false end.

(** The number held by a value that a [typeof v === "number"] guard (possibly
    after [?? 0]) has established to be a number. *)
Definition as_number (v : JsValue) : float :=
  match v with JNum n => n | _ => nan end.

(** [Number.isNaN(v)]: true only of the number NaN, no coercion. *)
Definition Number_isNaN (v : JsValue) : bool :=
  match v with JNum n => is_nan n | _ => false end.

(** [Math.min(a, b)] on two numbers: NaN if either is NaN, and -0 below +0. *)
Definition Math_min (a b : float) : float :=
  if is_nan a || is_nan b then nan
  else if (a <? b)%float then a
  else if (b <? a)%float then b
  else if get_sign a then a else b.

(** [Math.max(a, b)] on two numbers: NaN if either is NaN, and +0 above -0. *)
Definition Math_max (a b : float) : float :=
  if is_nan a || is_nan b then nan
  else if (a <? b)%float then b
  else if (b <? a)%float then a
  else if get_sign a then b else a.

(** The number nearest to an integer (round to nearest, ties to even), as
    [Number] yields for a string of decimal digits and as an array index is
    when it enters arithmetic. *)
Definition number_of_Z (z : Z) : float :=
  SF2Prim (binary_normalize prec emax z 0 false).

(** A number used as a condition: false for NaN, +0 and -0. *)
Definition truthy_number (n : float) : bool := negb (is_nan n || is_zero n).

(** ** The regular expressions of the file, on lists of characters *)

(** [\w] *)
Definition is_word_char (c : ascii) : bool :=
  let n := nat_of_ascii c in
  ((48 <=? n)%nat && (n <=? 57)%nat) || ((65 <=? n)%nat && (n <=? 90)%nat)
  || ((97 <=? n)%nat && (n <=? 122)%nat) || (n =? 95)%nat.

(** [\d] *)
Definition is_digit (c : ascii) : bool :=
  let n := nat_of_ascii c in (48 <=? n)%nat && (n <=? 57)%nat.

(** The longest prefix whose characters satisfy [f], and what follows it. *)
Fixpoint span (f : ascii -> bool) (s : list ascii) : list ascii * list ascii :=
  match s with
  | c :: rest =>
      if f c then let '(run, tail) := span f rest in (c :: run, tail)
      else ([], s)
  | [] => ([], [])
  end.

(** [path.replace(/\.\w+$/, "")]: the only possible match is the last dot
    followed by a non-empty run of word characters up to the end. *)
Definition drop_last_segment (s : string) : string :=
  match span is_word_char (rev (list_ascii_of_string s)) with
  | (_ :: _, "."%char :: rest) => string_of_list_ascii (rev rest)
  | _ => s
  end.

(** [path.replace(/\.?\w+\.\w+$/, "")]: the last two dot-separated words, with
    the dot in front of them when there is one (the leftmost match). *)
Definition drop_last_two_segments (s : string) : string :=
  match span is_word_char (rev (list_ascii_of_string s)) with
  | (_ :: _, "."%char :: r1) =>
      match span is_word_char r1 with
      | (_ :: _, r2) =>
          string_of_list_ascii
            (rev match r2 with "."%char :: r3 => r3 | _ => r2 end)
      | _ => s
      end
  | _ => s
  end.

(** If [p] is a prefix of [s], what follows it. *)
Fixpoint strip_prefix (p s : list ascii) : option (list ascii) :=
  match p, s with
  | [], _ => Some s
  | a :: p', b :: s' => if Ascii.eqb a b then strip_prefix p' s' else None
  | _ :: _, [] => None
  end.

(** Is there a match of [\bundefined\b] in [s], [prev_word] telling whether the
    character before [s] is a word character. *)
Fixpoint undefined_token_from (prev_word : bool) (s : list ascii) : bool :=
  match s with
  | [] => false
  | c :: rest =>
      (negb prev_word
       && match strip_prefix (list_ascii_of_string "undefined") s with
          | Some [] => true
          | Some (d :: _) => negb (is_word_char d)
          | None => false
          end)
      || undefined_token_from (is_word_char c) rest
  end.

(** [/\bundefined\b/.test(s)] *)
Definition has_undefined_token (s : string) : bool :=
  undefined_token_from false (list_ascii_of_string s).

(** The decimal value of a run of digits. *)
Definition Z_of_digits (ds : list ascii) : Z :=
  fold_left (fun acc d => (acc * 10 + (Z.of_nat (nat_of_ascii d) - 48))%Z) ds 0%Z.

(** [Number(/-(\d+)$/.exec(s)?.[1])]: the number written after the last hyphen
    when only digits follow it, and NaN ([Number(undefined)]) otherwise. *)
Definition trailing_number (s : string) : float :=
  match span is_digit (rev (list_ascii_of_string s)) with
  | (d :: ds, "-"%char :: _) => number_of_Z (Z_of_digits (rev (d :: ds)))
  | _ => nan
  end.

(** ** The data model *)

(** A predicate, seen through [predicate.test(rollOptions)]. *)
Definition PredicatePF2e : Type := list string -> bool.

(** The owning item, as far as the rule element reads it. *)
Record ItemPF2e := {
  item_name : string;
  item_uuid : string;
  (** [item instanceof FeatPF2e] *)
  item_isFeat : bool;
  (** [item.data.data.location]; [None] when it is null or undefined *)
  item_location : option string;
  (** [item.level]; [JUndefined] when the item has no such property *)
  item_level : JsValue;
}.

(** [AELikeSource]: the raw JSON of the rule element.  [mode] and [path] are
    declared [unknown]; a missing member is [JUndefined]. *)
Record AELikeSource := {
  src_path : JsValue;
  src_value : JsValue;
  src_mode : JsValue;
  src_priority : JsValue;
  src_phase : JsValue;
  src_predicate : option PredicatePF2e;
}.

(** [AELikeData], the record behind [this.data], with the [ignored] flag the
    base class keeps in it. *)
Record AELikeData := {
  path : JsValue;
  value : JsValue;
  mode : JsValue;
  priority : JsValue;
  phase : JsValue;
  predicate : option PredicatePF2e;
  ignored : bool;
}.

Record AELikeRuleElement := {
  data : AELikeData;
  item : ItemPF2e;
}.

(** [AutoChangeEntry] *)
Record AutoChangeEntry := {
  source : string;
  level : JsValue;
  entry_value : JsValue;
  entry_mode : JsValue;
}.

(** The actor: [actor.data] as a tree of values, and the change log
    [actor.data.data.autoChanges], a map from resolved paths to entries.  The
    log is kept beside the tree: the paths of directives are taken not to
    reach into it.  What is said of the log after a write is said of the world
    the write leaves, as [logged (write w p v) p e]: the log read once the
    write is done, with one entry appended. *)
Record ActorPF2e := {
  actor_data : JsValue;
  autoChanges : gmap string (list AutoChangeEntry);
}.

(** What the rule element can change outside itself: the actor it belongs to
    ([item.actor]) and the lines written with [console.warn]. *)
Record World := {
  actor : ActorPF2e;
  console : list string;
}.

(** [this.data.path = p] *)
Definition with_path (self : AELikeRuleElement) (p : JsValue) : AELikeRuleElement :=
  {| data := {| path := p;
                value := self.(data).(value);
                mode := self.(data).(mode);
                priority := self.(data).(priority);
                phase := self.(data).(phase);
                predicate := self.(data).(predicate);
                ignored := self.(data).(ignored) |};
     item := self.(item) |}.

(** [this.ignored = true] *)
Definition set_ignored (self : AELikeRuleElement) : AELikeRuleElement :=
  {| data := {| path := self.(data).(path);
                value := self.(data).(value);
                mode := self.(data).(mode);
                priority := self.(data).(priority);
                phase := self.(data).(phase);
                predicate := self.(data).(predicate);
                ignored := true |};
     item := self.(item) |}.

Definition with_actor_data (w : World) (tree : JsValue) : World :=
  {| actor := {| actor_data := tree; autoChanges := w.(actor).(autoChanges) |};
     console := w.(console) |}.

Definition with_autoChanges (w : World) (log : gmap string (list AutoChangeEntry)) : World :=
  {| actor := {| actor_data := w.(actor).(actor_data); autoChanges := log |};
     console := w.(console) |}.

Definition with_console (w : World) (lines : list string) : World :=
  {| actor := w.(actor); console := lines |}.

(** ** What the file imports *)

(** The functions [ae-like.ts] calls and does not define.  [getProperty] and
    [setProperty] are Foundry's accessors over a tree by dotted path (the
    second returning the tree after the write); [getRollOptions] stands for
    [actor.getRollOptions(["all"])]; the two resolvers are methods of the base
    class, which read the rule element and its actor. *)
Class Host := {
  getProperty : JsValue -> string -> JsValue;
  setProperty : JsValue -> string -> JsValue -> JsValue;
  getRollOptions : ActorPF2e -> list string;
  resolveInjectedProperties : AELikeRuleElement -> ActorPF2e -> string -> string;
  resolveValue : AELikeRuleElement -> ActorPF2e -> JsValue -> JsValue;
}.

(** Modelled from the spec: [isObject] of [@util], which is not under src/.
    Section 4.2 has the override resolve placeholders "if value is a plain
    key-value object". *)
Definition isObject (v : JsValue) : bool :=
  match v with JObj _ => true | _ => false end.

(** Modelled from the spec: the constructor of the base class
    [RuleElementPF2e], which is not under src/.  Section 3 has a directive hold
    the fields of its source, with [ignored] set only when validation fails or
    the priority is NaN, so the base constructor stores the fields and starts
    with [ignored = false]. *)
Definition RuleElementPF2e_constructor (src : AELikeSource) (it : ItemPF2e)
  : AELikeRuleElement :=
  {| data := {| path := src.(src_path);
                value := src.(src_value);
                mode := src.(src_mode);
                priority := src.(src_priority);
                phase := src.(src_phase);
                predicate := src.(src_predicate);
                ignored := false |};
     item := it |}.

(** ** The rule element *)

Definition CHANGE_MODES : list string :=
  ["multiply"; "add"; "downgrade"; "upgrade"; "override"].

(** [modes.includes(m)] *)
Definition includes (modes : list string) (m : JsValue) : bool :=
  existsb (str_is m) modes.

(** [modes.indexOf(m)], -1 when [m] is not among them *)
Fixpoint indexOf (modes : list string) (m : JsValue) : Z :=
  match modes with
  | [] => (-1)%Z
  | x :: rest =>
      if str_is m x then 0%Z
      else let i := indexOf rest m in if (i <? 0)%Z then (-1)%Z else (i + 1)%Z
  end.

Definition dquote : string := String (ascii_of_nat 34) EmptyString.

(** [warn(path)]: one line on the console, naming the property and the item. *)
Definition warn (self : AELikeRuleElement) (w : World) (property : string) : World :=
  with_console w
    (w.(console) ++
     ["PF2e System | " +:+ dquote +:+ property +:+ dquote
      +:+ " property on RuleElement from item " +:+ self.(item).(item_name)
      +:+ " (" +:+ self.(item).(item_uuid) +:+ ") is invalid"]).

(** The level recorded in a change-log entry. *)
Definition entry_level (it : ItemPF2e) : JsValue :=
  if it.(item_isFeat) then
    let parsed := trailing_number (default "" it.(item_location)) in
    if truthy_number parsed then JNum parsed else it.(item_level)
  else if typeof_is it.(item_level) "number" then it.(item_level)
  else JNull.

(** [logChange(value)].  The key is [this.path], which [applyAELike] has set to
    the resolved string before any call; with another kind of path there is no
    result. *)
Definition logChange (self : AELikeRuleElement) (w : World) (v : JsValue)
  : option World :=
  if typeof_is v "string" && negb (str_is self.(data).(mode) "override") then Some w
  else
    match self.(data).(path) with
    | JStr key =>
        let entries := default [] (w.(actor).(autoChanges) !! key) in
        let entry := {| source := self.(item).(item_name);
                        level := entry_level self.(item);
                        entry_value := v;
                        entry_mode := self.(data).(mode) |} in
        Some (with_autoChanges w (<[key := entries ++ [entry]]> w.(actor).(autoChanges)))
    | _ => None
    end.

(** In the override of an object, the loop over [Object.entries(change)]. *)
Definition resolve_members (resolve : string -> string)
    (members : list (string * JsValue)) : list (string * JsValue) :=
  map (fun '(key, v) =>
         (key, match v with JStr s => JStr (resolve s) | _ => v end))
      members.

Section RuleElement.
Context `{Host}.

(** [setProperty(this.actor.data, path, v)] *)
Definition write (w : World) (p : string) (v : JsValue) : World :=
  with_actor_data w (setProperty w.(actor).(actor_data) p v).

(** The constructor.  [deepClone] is the identity on values. *)
Definition constructor (src : AELikeSource) (it : ItemPF2e) (w : World)
  : AELikeRuleElement * World :=
  let src :=
    {| src_path := src.(src_path);
       src_value := src.(src_value);
       src_mode := src.(src_mode);
       src_priority :=
         nullish src.(src_priority)
           (JNum (if typeof_is src.(src_mode) "string"
                     && includes CHANGE_MODES src.(src_mode)
                  then (number_of_Z (indexOf CHANGE_MODES src.(src_mode)) * 10 + 10)%float
                  else nan));
       src_phase := nullish src.(src_phase) (JStr "applyAEs");
       src_predicate := src.(src_predicate) |} in
  let self := RuleElementPF2e_constructor src it in
  if Number_isNaN self.(data).(priority) then (set_ignored self, w)
  else
    let pathIsValid :=
      typeof_is self.(data).(path) "string"
      && match self.(data).(path) with
         | JStr p =>
             existsb
               (fun path =>
                  (* typeof getProperty(actor.data, path) !== undefined *)
                  negb (is_undefined
                          (JStr (typeof (getProperty w.(actor).(actor_data) path)))))
               [p; drop_last_segment p; drop_last_two_segments p]
         | _ => false
         end in
    let w := if negb pathIsValid then warn self w "path" else w in
    let valueIsValid :=
      existsb (String.eqb (typeof self.(data).(value)))
              ["number"; "string"; "boolean"; "object"] in
    let w := if negb valueIsValid then warn self w "value" else w in
    if negb (pathIsValid && valueIsValid) then (set_ignored self, w)
    else (self, w).

(** [applyAELike()].  The result is the rule element, whose stored path the
    method overwrites, and the world after the call.  There is no result
    for a path that is not a string: [resolveInjectedProperties] takes a
    string, and the constructor marks such an element ignored, so that no
    hook calls the method on it. *)
Definition applyAELike (self : AELikeRuleElement) (w : World)
  : option (AELikeRuleElement * World) :=
  if match self.(data).(predicate) with
     | Some predicate => negb (predicate (getRollOptions w.(actor)))
     | None => false
     end
  then Some (self, w)
  else
    match self.(data).(path) with
    | JStr unresolved =>
        let p := resolveInjectedProperties self w.(actor) unresolved in
        let self := with_path self (JStr p) in
        if has_undefined_token p then Some (self, w)
        else
          let change := resolveValue self w.(actor) self.(data).(value) in
          let current := getProperty w.(actor).(actor_data) p in
          let m := self.(data).(mode) in
          if str_is m "multiply" then
            if negb (typeof_is change "number"
                     && (typeof_is current "number" || is_undefined current))
            then Some (self, warn self w "path")
            else
              let newValue :=
                (as_number (nullish current (JNum 0)) * as_number change)%float in
              w ← logChange self (write w p (JNum newValue)) change;
              Some (self, w)
          else if str_is m "add" then
            let isNumericAdd :=
              typeof_is change "number"
              && (typeof_is current "number" || is_undefined current || is_null current) in
            let isArrayAdd :=
              isArray current
              && match current with
                 | JArr elems =>
                     forallb (fun e => String.eqb (typeof e) (typeof change)) elems
                 | _ => false
                 end in
            if isNumericAdd then
              let newValue :=
                (as_number (nullish current (JNum 0)) + as_number change)%float in
              w ← logChange self (write w p (JNum newValue)) change;
              Some (self, w)
            else if isArrayAdd then
              (* current.push(change): the array read at [p] grows where it is *)
              match current with
              | JArr elems => Some (self, write w p (JArr (elems ++ [change])))
              | _ => Some (self, w)
              end
            else Some (self, warn self w "path")
          else if str_is m "downgrade" then
            if negb (typeof_is change "number"
                     && (typeof_is current "number" || is_undefined current))
            then Some (self, warn self w "path")
            else
              let newValue :=
                Math_min (as_number (nullish current (JNum 0))) (as_number change) in
              w ← logChange self (write w p (JNum newValue)) change;
              Some (self, w)
          else if str_is m "upgrade" then
            if negb (typeof_is change "number"
                     && (typeof_is current "number" || is_undefined current))
            then Some (self, warn self w "path")
            else
              let newValue :=
                Math_max (as_number (nullish current (JNum 0))) (as_number change) in
              w ← logChange self (write w p (JNum newValue)) change;
              Some (self, w)
          else if str_is m "override" then
            let currentValue := getProperty w.(actor).(actor_data) p in
            if String.eqb (typeof change) (typeof currentValue)
               || is_undefined currentValue
            then
              let change :=
                if isObject change then
                  match change with
                  | JObj members =>
                      JObj (resolve_members
                              (resolveInjectedProperties self w.(actor)) members)
                  | _ => change
                  end
                else change in
              let w := write w p change in
              if typeof_is change "string" then
                w ← logChange self w change; Some (self, w)
              else Some (self, w)
            else Some (self, w)
          else Some (self, w)
    | _ => None
    end.

(** [onApplyActiveEffects()] *)
Definition onApplyActiveEffects (self : AELikeRuleElement) (w : World)
  : option (AELikeRuleElement * World) :=
  if negb self.(data).(ignored) && str_is self.(data).(phase) "applyAEs"
  then applyAELike self w else Some (self, w).

(** [beforePrepareData()] *)
Definition beforePrepareData (self : AELikeRuleElement) (w : World)
  : option (AELikeRuleElement * World) :=
  if negb self.(data).(ignored) && str_is self.(data).(phase) "beforeDerived"
  then applyAELike self w else Some (self, w).

(** [afterPrepareData()] *)
Definition afterPrepareData (self : AELikeRuleElement) (w : World)
  : option (AELikeRuleElement * World) :=
  if negb self.(data).(ignored) && str_is self.(data).(phase) "afterDerived"
  then applyAELike self w else Some (self, w).

End RuleElement.

(** The three hooks by name, and a run of the rule element through a list of
    data-preparation steps, each in the world it finds. *)
Inductive Hook := OnApplyActiveEffects | BeforePrepareData | AfterPrepareData.

Definition call `{Host} (h : Hook) (self : AELikeRuleElement) (w : World)
  : option (AELikeRuleElement * World) :=
  match h with
  | OnApplyActiveEffects => onApplyActiveEffects self w
  | BeforePrepareData => beforePrepareData self w
  | AfterPrepareData => afterPrepareData self w
  end.

(** The rule element after a sequence of hook calls; the world of each call is
    whatever the rest of data preparation has made of it by then. *)
Fixpoint cycles `{Host} (steps : list (Hook * World)) (self : AELikeRuleElement)
  : option AELikeRuleElement :=
  match steps with
  | [] => Some self
  | (h, w) :: rest => r ← call h self w; cycles rest r.1
  end.

(** ** A host to run examples on *)

(** A host for trees of plain objects: dotted paths are walked member by
    member as Foundry's accessors do on such trees; placeholders are resolved
    by a table from whole strings to their resolved forms, strings not in the
    table standing for themselves; the roll options are fixed. *)
Module Fixture.

(** [key.split(".")] on the characters of the key, [word] being the segment
    read so far, in reverse. *)
Fixpoint split_dots (word : list ascii) (s : list ascii) : list string :=
  match s with
  | [] => [string_of_list_ascii (rev word)]
  | c :: rest =>
      if Ascii.eqb c "."%char
      then string_of_list_ascii (rev word) :: split_dots [] rest
      else split_dots (c :: word) rest
  end.

Fixpoint member (k : string) (ms : list (string * JsValue)) : option JsValue :=
  match ms with
  | [] => None
  | (k', v) :: rest => if String.eqb k k' then Some v else member k rest
  end.

Fixpoint set_member (k : string) (v : JsValue) (ms : list (string * JsValue))
  : list (string * JsValue) :=
  match ms with
  | [] => [(k, v)]
  | (k', v') :: rest =>
      if String.eqb k k' then (k, v) :: rest else (k', v') :: set_member k v rest
  end.

Fixpoint walk (target : JsValue) (keys : list string) : JsValue :=
  match keys with
  | [] => target
  | k :: rest =>
      match target with
      | JObj ms =>
          match member k ms with Some v => walk v rest | None => JUndefined end
      | _ => JUndefined
      end
  end.

Definition get (tree : JsValue) (key : string) : JsValue :=
  if String.eqb key "" then JUndefined
  else walk tree (split_dots [] (list_ascii_of_string key)).

Fixpoint assign (target : JsValue) (keys : list string) (v : JsValue) : JsValue :=
  match keys with
  | [] => v
  | k :: rest =>
      let ms := match target with JObj ms => ms | _ => [] end in
      JObj (set_member k (assign (default (JObj []) (member k ms)) rest v) ms)
  end.

Definition set (tree : JsValue) (key : string) (v : JsValue) : JsValue :=
  assign tree (split_dots [] (list_ascii_of_string key)) v.

Fixpoint substitute (table : list (string * string)) (s : string) : string :=
  match table with
  | [] => s
  | (from, to) :: rest => if String.eqb s from then to else substitute rest s
  end.

Definition host (rollOptions : list string) (table : list (string * string)) : Host :=
  {| getProperty := get;
     setProperty := set;
     getRollOptions := fun _ => rollOptions;
     resolveInjectedProperties := fun _ _ s => substitute table s;
     resolveValue := fun _ _ v =>
       match v with JStr s => JStr (substitute table s) | _ => v end |}.

End Fixture.

(** ** Vocabulary of the statements *)

(** The entry [logChange(v)] pushes. *)
Definition entry_of (self : AELikeRuleElement) (v : JsValue) : AutoChangeEntry :=
  {| source := self.(item).(item_name);
     level := entry_level self.(item);
     entry_value := v;
     entry_mode := self.(data).(mode) |}.

(** The log with one more entry under [key]. *)
Definition appended (log : gmap string (list AutoChangeEntry)) (key : string)
    (e : AutoChangeEntry) : gmap string (list AutoChangeEntry) :=
  <[key := default [] (log !! key) ++ [e]]> log.

(** The world with one more log entry under [key]. *)
Definition logged (w : World) (key : string) (e : AutoChangeEntry) : World :=
  with_autoChanges w (appended w.(actor).(autoChanges) key e).

(** The predicate is absent or holds of the actor's roll options. *)
Definition predicate_passes `{Host} (self : AELikeRuleElement) (w : World) : bool :=
  match self.(data).(predicate) with
  | Some test => test (getRollOptions w.(actor))
  | None => true
  end.

(** The path after injected-property resolution, when the stored one is a
    string. *)
Definition resolved_path `{Host} (self : AELikeRuleElement) (w : World)
  : option string :=
  match self.(data).(path) with
  | JStr unresolved => Some (resolveInjectedProperties self w.(actor) unresolved)
  | _ => None
  end.

(** The resolved value [change], computed once the path [p] is stored. *)
Definition resolved_change `{Host} (self : AELikeRuleElement) (w : World)
    (p : string) : JsValue :=
  resolveValue (with_path self (JStr p)) w.(actor) self.(data).(value).

(** The value [current] read at [p]. *)
Definition current_at `{Host} (w : World) (p : string) : JsValue :=
  getProperty w.(actor).(actor_data) p.

(** [applyAELike] gets as far as its [switch] with the resolved path [p]: the
    predicate passes and [p] holds no [undefined] token. *)
Definition reaches_switch `{Host} (self : AELikeRuleElement) (w : World)
    (p : string) : Prop :=
  predicate_passes self w = true
  /\ resolved_path self w = Some p
  /\ has_undefined_token p = false.

(** The four arithmetic modes of section 4.2 of the specification, with the
    precondition on [current] and the operation its table gives for each. *)
Inductive ArithmeticMode := Multiply | Add | Downgrade | Upgrade.

Definition mode_name (m : ArithmeticMode) : string :=
  match m with
  | Multiply => "multiply"
  | Add => "add"
  | Downgrade => "downgrade"
  | Upgrade => "upgrade"
  end.

Definition spec_precondition (m : ArithmeticMode) (current : JsValue) : bool :=
  match m, current with
  | _, JNum _ => true
  | _, JUndefined => true
  | Add, JNull => true
  | _, _ => false
  end.

Definition spec_operation (m : ArithmeticMode) (current : JsValue) (v : float)
  : float :=
  let c := match current with JNum n => n | _ => 0%float end in
  match m with
  | Multiply => (c * v)%float
  | Add => (c + v)%float
  | Downgrade => Math_min c v
  | Upgrade => Math_max c v
  end.

(** What the override of section 4.2 writes: the value itself, a plain object
    having its string members resolved first. *)
Definition spec_override_value (resolve : string -> string) (v : JsValue) : JsValue :=
  match v with
  | JObj members =>
      JObj (map (fun kv => (kv.1, match kv.2 with
                                  | JStr s => JStr (resolve s)
                                  | other => other
                                  end)) members)
  | _ => v
  end.

(** The phase each hook serves. *)
Definition hook_phase (h : Hook) : string :=
  match h with
  | OnApplyActiveEffects => "applyAEs"
  | BeforePrepareData => "beforeDerived"
  | AfterPrepareData => "afterDerived"
  end.

(** What the constructor leaves behind: a rule element that is ignored or has
    a string for its path. *)
Definition validated (self : AELikeRuleElement) : Prop :=
  self.(data).(ignored) = true \/ exists u, self.(data).(path) = JStr u.

(** The members of the directive's record that no application touches. *)
Definition same_directive (a b : AELikeRuleElement) : Prop :=
  a.(data).(mode) = b.(data).(mode)
  /\ a.(data).(phase) = b.(data).(phase)
  /\ a.(data).(priority) = b.(data).(priority)
  /\ a.(data).(ignored) = b.(data).(ignored)
  /\ a.(data).(predicate) = b.(data).(predicate)
  /\ a.(item) = b.(item).

(** ** Example data *)

Module Examples.

Definition toughness : ItemPF2e :=
  {| item_name := "Toughness";
     item_uuid := "Actor.kx2.Item.t7";
     item_isFeat := true;
     item_location := Some "general-3";
     item_level := JNum 1 |}.

(** [{ data: { attributes: { hp: { max: n } }, traits: { languages: ls } } }] *)
Definition sheet (hp : JsValue) (languages : JsValue) : JsValue :=
  JObj [("data", JObj [("attributes", JObj [("hp", JObj [("max", hp)])]);
                       ("traits", JObj [("languages", languages)])])].

Definition world (tree : JsValue) : World :=
  {| actor := {| actor_data := tree; autoChanges := ∅ |}; console := [] |}.

Definition hp_max : string := "data.attributes.hp.max".
Definition languages : string := "data.traits.languages".

(** A source without priority, phase or predicate. *)
Definition directive (m : string) (p : string) (v : JsValue) : AELikeSource :=
  {| src_path := JStr p;
     src_value := v;
     src_mode := JStr m;
     src_priority := JUndefined;
     src_phase := JUndefined;
     src_predicate := None |}.

(** The rule element the constructor would store for [directive m p v], with the
    default priority [prio]. *)
Definition element (m : string) (prio : float) (p : string) (v : JsValue)
  : AELikeRuleElement :=
  {| data := {| path := JStr p; value := v; mode := JStr m;
                priority := JNum prio; phase := JStr "applyAEs";
                predicate := None; ignored := false |};
     item := toughness |}.

(** A host without roll options or placeholders. *)
Definition plain : Host := Fixture.host [] [].

(** A host that resolves one placeholder-bearing path. *)
Definition injecting : Host :=
  Fixture.host [] [("data.attributes.{item|flags.pf2e.stat}.max", hp_max)].

(** A host in which a reference cannot be resolved. *)
Definition unresolving : Host :=
  Fixture.host [] [("data.attributes.{item|flags.pf2e.stat}.max",
                    "data.attributes.undefined.max")].

(** A host that resolves a reference to the item's name. *)
Definition naming : Host := Fixture.host [] [("{item|name}", "Toughness")].

(** A predicate that wants the roll option [self:armored]. *)
Definition armored : PredicatePF2e :=
  fun options => existsb (String.eqb "self:armored") options.

Definition with_predicate (self : AELikeRuleElement) (t : PredicatePF2e)
  : AELikeRuleElement :=
  {| data := {| path := self.(data).(path);
                value := self.(data).(value);
                mode := self.(data).(mode);
                priority := self.(data).(priority);
                phase := self.(data).(phase);
                predicate := Some t;
                ignored := self.(data).(ignored) |};
     item := self.(item) |}.

End Examples.

(** ** Vocabulary of the further properties *)

(** A non-empty run of word characters, as [\w+] matches. *)
Definition is_word (w : string) : Prop :=
  w <> "" /\ Forall (fun c => is_word_char c = true) (list_ascii_of_string w).

(** A non-empty run of digits, as [\d+] matches. *)
Definition is_digits (ds : string) : Prop :=
  ds <> "" /\ Forall (fun c => is_digit c = true) (list_ascii_of_string ds).

(** The line [warn(property)] writes for a rule element of the item. *)
Definition warning_line (it : ItemPF2e) (property : string) : string :=
  "PF2e System | " +:+ dquote +:+ property +:+ dquote
  +:+ " property on RuleElement from item " +:+ it.(item_name)
  +:+ " (" +:+ it.(item_uuid) +:+ ") is invalid".

(** The source after the two defaulting assignments that open the
    constructor. *)
Definition defaulted (src : AELikeSource) : AELikeSource :=
  {| src_path := src.(src_path);
     src_value := src.(src_value);
     src_mode := src.(src_mode);
     src_priority :=
       nullish src.(src_priority)
         (JNum (if typeof_is src.(src_mode) "string"
                   && includes CHANGE_MODES src.(src_mode)
                then (number_of_Z (indexOf CHANGE_MODES src.(src_mode)) * 10 + 10)%float
                else nan));
     src_phase := nullish src.(src_phase) (JStr "applyAEs");
     src_predicate := src.(src_predicate) |}.

(** The source with another mode. *)
Definition with_mode (src : AELikeSource) (m : JsValue) : AELikeSource :=
  {| src_path := src.(src_path);
     src_value := src.(src_value);
     src_mode := m;
     src_priority := src.(src_priority);
     src_phase := src.(src_phase);
     src_predicate := src.(src_predicate) |}.

(** ** The order of numbers *)

Lemma SFcompare_antisym (x y : spec_float) :
  SFcompare y x = option_map CompOpp (SFcompare x y).
Proof.
  destruct x as [sx|sx| |sx mx ex], y as [sy|sy| |sy my ey]; simpl;
    try (by repeat case_match).
  destruct sx, sy; simpl; try done.
  - rewrite (Z.compare_antisym ex ey).
    destruct (ex ?= ey)%Z; simpl; try done.
    change (Pos.compare_cont Eq my mx) with (Pos.compare_cont (CompOpp Eq) my mx).
    by rewrite <- Pos.compare_cont_antisym.
  - rewrite (Z.compare_antisym ex ey).
    destruct (ex ?= ey)%Z; simpl; try done.
    change (Pos.compare_cont Eq my mx) with (Pos.compare_cont (CompOpp Eq) my mx).
    by rewrite <- Pos.compare_cont_antisym.
Qed.

Lemma SFcompare_defined (x y : spec_float) :
  SFeqb x x = true -> SFeqb y y = true -> exists c, SFcompare x y = Some c.
Proof. destruct x, y; simpl; try done; eauto. Qed.

Lemma float_order_cases (a b : float) :
  is_nan a = false -> is_nan b = false ->
  (a <=? a)%float = true
  /\ ((a <? b)%float = true -> (a <=? b)%float = true)
  /\ ((a <? b)%float = false -> (b <? a)%float = false ->
      (a <=? b)%float = true /\ (b <=? a)%float = true).
Proof.
  unfold is_nan.
  rewrite !negb_false_iff, !FloatAxioms.eqb_spec, !FloatAxioms.ltb_spec,
    !FloatAxioms.leb_spec.
  intros Ha Hb.
  destruct (SFcompare_defined _ _ Ha Hb) as (c & Hc).
  unfold SFltb, SFleb. rewrite (SFcompare_antisym (Prim2SF a) (Prim2SF b)), Hc.
  unfold SFeqb in Ha.
  destruct (SFcompare (Prim2SF a) (Prim2SF a)) as [[]|]; try done.
  by destruct c.
Qed.

(** [Math.min] and [Math.max] of two numbers that are not NaN: one of the two,
    below both or above both. *)
Lemma Math_min_max_bounds (a b : float) :
  is_nan a = false -> is_nan b = false ->
  (Math_min a b = a \/ Math_min a b = b)
  /\ (Math_min a b <=? a)%float = true /\ (Math_min a b <=? b)%float = true
  /\ (Math_max a b = a \/ Math_max a b = b)
  /\ (a <=? Math_max a b)%float = true /\ (b <=? Math_max a b)%float = true.
Proof.
  intros Ha Hb.
  destruct (float_order_cases a b Ha Hb) as (Haa & Hlt & Heq).
  destruct (float_order_cases b a Hb Ha) as (Hbb & Hgt & _).
  unfold Math_min, Math_max. rewrite Ha, Hb. simpl.
  destruct (a <? b)%float; [by auto 10|].
  destruct (b <? a)%float; [by auto 10|].
  destruct Heq as [Hab Hba]; [done..|].
  destruct (get_sign a); auto 10.
Qed.

(** ** Properties *)

Section Properties.
Context `{Host}.

(** *** How [applyAELike] runs *)

Lemma logChange_stored (self : AELikeRuleElement) (p : string) (w : World)
    (v : JsValue) :
  logChange (with_path self (JStr p)) w v
  = Some (if typeof_is v "string" && negb (str_is self.(data).(mode) "override")
          then w else logged w p (entry_of (with_path self (JStr p)) v)).
Proof. unfold logChange; simpl. by case_match. Qed.

Lemma resolve_members_spec (resolve : string -> string)
    (members : list (string * JsValue)) :
  JObj (resolve_members resolve members) = spec_override_value resolve (JObj members).
Proof.
  unfold resolve_members, spec_override_value. f_equal.
  apply map_ext. by intros [k []].
Qed.

Lemma applyAELike_predicate_false (self : AELikeRuleElement) (w : World) :
  predicate_passes self w = false -> applyAELike self w = Some (self, w).
Proof.
  unfold applyAELike, predicate_passes.
  destruct (predicate (data self)); [intros ->; reflexivity | discriminate].
Qed.

(** [applyAELike] past its predicate test, by cases as the [switch] takes
    them, the guards of the arithmetic modes read as preconditions on
    [current] and the writes as the operations of the specification's table. *)
Lemma applyAELike_switch (self : AELikeRuleElement) (w : World) (u : string) :
  predicate_passes self w = true ->
  self.(data).(path) = JStr u ->
  applyAELike self w
  = let p := resolveInjectedProperties self w.(actor) u in
    let self' := with_path self (JStr p) in
    if has_undefined_token p then Some (self', w)
    else
      let change := resolved_change self w p in
      let current := current_at w p in
      let arithmetic m :=
        if spec_precondition m current && typeof_is change "number" then
          Some (self',
                logged (write w p (JNum (spec_operation m current (as_number change))))
                       p (entry_of self' change))
        else Some (self', warn self' w "path") in
      let m := self.(data).(mode) in
      if str_is m "multiply" then arithmetic Multiply
      else if str_is m "add" then
        if spec_precondition Add current && typeof_is change "number" then
          arithmetic Add
        else match current with
             | JArr elems =>
                 if forallb (fun e => String.eqb (typeof e) (typeof change)) elems
                 then Some (self', write w p (JArr (elems ++ [change])))
                 else Some (self', warn self' w "path")
             | _ => Some (self', warn self' w "path")
             end
      else if str_is m "downgrade" then arithmetic Downgrade
      else if str_is m "upgrade" then arithmetic Upgrade
      else if str_is m "override" then
        if String.eqb (typeof change) (typeof current) || is_undefined current then
          let v := spec_override_value (resolveInjectedProperties self' w.(actor)) change in
          if typeof_is change "string"
          then Some (self', logged (write w p v) p (entry_of self' v))
          else Some (self', write w p v)
        else Some (self', w)
      else Some (self', w).
Proof.
  intros Hpred Hu.
  unfold applyAELike, predicate_passes, resolved_change, current_at in *.
  rewrite Hu.
  replace (match predicate (data self) with
           | Some predicate => negb (predicate (getRollOptions (actor w)))
           | None => false
           end) with false
    by (destruct (predicate (data self)); [rewrite Hpred|]; reflexivity).
  cbv zeta. simpl.
  set (p := resolveInjectedProperties self (actor w) u).
  set (self' := with_path self (JStr p)).
  set (change := resolveValue self' (actor w) (value (data self))).
  set (current := getProperty (actor_data (actor w)) p).
  destruct (has_undefined_token p); [reflexivity|].
  rewrite !(logChange_stored self p).
  destruct (str_is (mode (data self)) "multiply") eqn:Hmul.
  { destruct change, current; simpl; reflexivity. }
  destruct (str_is (mode (data self)) "add") eqn:Hadd.
  { destruct change, current; simpl; reflexivity. }
  destruct (str_is (mode (data self)) "downgrade") eqn:Hdown.
  { destruct change, current; simpl; reflexivity. }
  destruct (str_is (mode (data self)) "upgrade") eqn:Hup.
  { destruct change, current; simpl; reflexivity. }
  destruct (str_is (mode (data self)) "override") eqn:Hov; [|reflexivity].
  destruct change, current; simpl;
    rewrite ?(logChange_stored self p), ?Hov, ?resolve_members_spec; reflexivity.
Qed.

(** What reaching the switch says of the stored path. *)
Lemma applyAELike_reached (self : AELikeRuleElement) (w : World) (p : string) :
  reaches_switch self w p ->
  exists u, self.(data).(path) = JStr u
            /\ resolveInjectedProperties self w.(actor) u = p
            /\ has_undefined_token (resolveInjectedProperties self w.(actor) u) = false
            /\ predicate_passes self w = true.
Proof.
  intros (Hpred & Hp & Htok). unfold resolved_path in Hp.
  destruct (path (data self)) as [| | | |u| |]; simplify_eq.
  exists u. by rewrite Htok.
Qed.

Lemma applyAELike_arithmetic (self : AELikeRuleElement) (w : World) (p : string)
    (m : ArithmeticMode) (c : float) :
  reaches_switch self w p ->
  self.(data).(mode) = JStr (mode_name m) ->
  resolved_change self w p = JNum c ->
  spec_precondition m (current_at w p) = true ->
  applyAELike self w
  = Some (with_path self (JStr p),
          logged (write w p (JNum (spec_operation m (current_at w p) c))) p
                 (entry_of (with_path self (JStr p)) (JNum c))).
Proof.
  intros Hr Hm Hc Hpre.
  destruct (applyAELike_reached _ _ _ Hr) as (u & Hu & Hp & Htok & Hpred).
  rewrite (applyAELike_switch self w u Hpred Hu). cbv zeta.
  rewrite Htok, Hp, Hm, Hc.
  destruct m; simpl; simpl in Hpre; by rewrite Hpre.
Qed.

Lemma applyAELike_override (self : AELikeRuleElement) (w : World) (p : string) :
  reaches_switch self w p ->
  self.(data).(mode) = JStr "override" ->
  applyAELike self w
  = let self' := with_path self (JStr p) in
    let change := resolved_change self w p in
    let current := current_at w p in
    if String.eqb (typeof change) (typeof current) || is_undefined current then
      let v := spec_override_value (resolveInjectedProperties self' w.(actor)) change in
      if typeof_is change "string"
      then Some (self', logged (write w p v) p (entry_of self' v))
      else Some (self', write w p v)
    else Some (self', w).
Proof.
  intros Hr Hm.
  destruct (applyAELike_reached _ _ _ Hr) as (u & Hu & Hp & Htok & Hpred).
  rewrite (applyAELike_switch self w u Hpred Hu). cbv zeta.
  by rewrite Htok, Hp, Hm.
Qed.

Lemma applyAELike_add_array (self : AELikeRuleElement) (w : World) (p : string)
    (elems : list JsValue) :
  reaches_switch self w p ->
  self.(data).(mode) = JStr "add" ->
  current_at w p = JArr elems ->
  applyAELike self w
  = let self' := with_path self (JStr p) in
    let change := resolved_change self w p in
    if forallb (fun e => String.eqb (typeof e) (typeof change)) elems
    then Some (self', write w p (JArr (elems ++ [change])))
    else Some (self', warn self' w "path").
Proof.
  intros Hr Hm Hcur.
  destruct (applyAELike_reached _ _ _ Hr) as (u & Hu & Hp & Htok & Hpred).
  rewrite (applyAELike_switch self w u Hpred Hu). cbv zeta.
  by rewrite Htok, Hp, Hm, Hcur.
Qed.

Lemma same_type_forallb (v : JsValue) (elems : list JsValue) :
  forallb (fun e => String.eqb (typeof e) (typeof v)) elems = true
  <-> Forall (fun e => typeof e = typeof v) elems.
Proof.
  induction elems as [|e elems IH]; simpl.
  - split; [constructor | reflexivity].
  - rewrite andb_true_iff, Forall_cons, IH, String.eqb_eq. reflexivity.
Qed.

(** The rule element after [applyAELike]: itself, or itself with the
    resolved path stored. *)
Lemma applyAELike_self (self : AELikeRuleElement) (w : World)
    (r : AELikeRuleElement * World) :
  applyAELike self w = Some r ->
  r.1 = self
  \/ exists u, self.(data).(path) = JStr u
               /\ r.1 = with_path self (JStr (resolveInjectedProperties self w.(actor) u)).
Proof.
  destruct (predicate_passes self w) eqn:Hpred.
  2: { rewrite applyAELike_predicate_false by done. intros [= <-]. by left. }
  destruct (path (data self)) as [| | | |u| |] eqn:Hu.
  all: try (unfold applyAELike, predicate_passes in *; rewrite Hu;
            destruct (predicate (data self)); [rewrite Hpred|]; discriminate).
  rewrite (applyAELike_switch self w u Hpred Hu). cbv zeta.
  intros Hr. right. exists u. split; [done|].
  repeat case_match; by simplify_eq.
Qed.

(** [applyAELike] returns on every rule element whose path is a string. *)
Lemma applyAELike_total (self : AELikeRuleElement) (w : World) (u : string) :
  self.(data).(path) = JStr u -> is_Some (applyAELike self w).
Proof.
  intros Hu. destruct (predicate_passes self w) eqn:Hpred.
  2: { by rewrite applyAELike_predicate_false. }
  rewrite (applyAELike_switch self w u Hpred Hu). cbv zeta.
  repeat case_match; done.
Qed.



(** *** Skipped applications *)

(** C9: when the predicate is present and false of the owner's roll options,
    or the resolved path holds an [undefined] token, applying the directive
    changes nothing outside it: the data tree, the change log and the console
    are the ones it found. *)
Theorem C9_silent_skip (self : AELikeRuleElement) (w : World) :
  (predicate_passes self w = false -> applyAELike self w = Some (self, w))
  /\ (forall p : string,
        predicate_passes self w = true ->
        resolved_path self w = Some p ->
        has_undefined_token p = true ->
        applyAELike self w = Some (with_path self (JStr p), w)).
Proof.
  split; [apply applyAELike_predicate_false|].
  intros p Hpred Hp Htok. unfold resolved_path in Hp.
  destruct (path (data self)) as [| | | |u| |] eqn:Hu; simplify_eq.
  rewrite (applyAELike_switch self w u Hpred Hu). cbv zeta. by rewrite Htok.
Qed.

(** *** The arithmetic modes *)

(** C5: once the switch is reached, a numeric change in mode multiply, add,
    downgrade or upgrade, against a current value that is a number or
    undefined (or null, for add), writes [(current ?? 0) * value],
    [(current ?? 0) + value], [min(current ?? 0, value)] or
    [max(current ?? 0, value)] at the resolved path.  The product and the sum
    are those of the numbers; the minimum is one of the two operands and at
    most both, the maximum one of the two and at least both, and either is NaN
    when an operand is.  With current 5 and value 2 the four modes write 10, 7,
    2 and 5, and add with current undefined and value 3 writes 3. *)
Theorem C5_arithmetic_modes (self : AELikeRuleElement) (w : World) (p : string)
    (m : ArithmeticMode) (c : float) :
  reaches_switch self w p ->
  self.(data).(mode) = JStr (mode_name m) ->
  resolved_change self w p = JNum c ->
  spec_precondition m (current_at w p) = true ->
  exists (w' : World) (written : float),
    applyAELike self w = Some (with_path self (JStr p), w')
    /\ w'.(actor).(actor_data)
       = setProperty w.(actor).(actor_data) p (JNum written)
    /\ written = spec_operation m (current_at w p) c
    /\ (current_at w p = JNum 5 -> c = 2%float ->
        written = match m with
                  | Multiply => 10 | Add => 7 | Downgrade => 2 | Upgrade => 5
                  end%float)
    /\ (current_at w p = JUndefined -> c = 3%float -> m = Add ->
        written = 3%float)
    /\ (forall current : float,
          current_at w p = JNum current
          \/ (current = 0%float
              /\ (current_at w p = JUndefined \/ current_at w p = JNull)) ->
          (m = Multiply -> written = (current * c)%float)
          /\ (m = Add -> written = (current + c)%float)
          /\ (m = Downgrade \/ m = Upgrade ->
              is_nan current || is_nan c = true -> written = nan)
          /\ (m = Downgrade -> is_nan current = false -> is_nan c = false ->
              (written = current \/ written = c)
              /\ (written <=? current)%float = true
              /\ (written <=? c)%float = true)
          /\ (m = Upgrade -> is_nan current = false -> is_nan c = false ->
              (written = current \/ written = c)
              /\ (current <=? written)%float = true
              /\ (c <=? written)%float = true)).
Proof.
  intros Hr Hm Hc Hpre.
  eexists _, _. split; [by apply applyAELike_arithmetic|].
  split; [reflexivity|]. split; [reflexivity|]. split; [|split].
  - intros -> ->. by destruct m.
  - by intros -> -> ->.
  - intros current Hcur.
    assert (forall m' : ArithmeticMode,
               spec_operation m' (current_at w p) c
               = spec_operation m' (JNum current) c) as Hop.
    { intros m'. by destruct Hcur as [->|[-> [->| ->]]]. }
    rewrite Hop. split; [by intros ->|]. split; [by intros ->|].
    split; [|split].
    + intros Hdu Hnan.
      by destruct Hdu as [->| ->]; simpl; unfold Math_min, Math_max; rewrite Hnan.
    + intros -> Ha Hb. simpl.
      destruct (Math_min_max_bounds current c Ha Hb) as (? & ? & ? & _). done.
    + intros -> Ha Hb. simpl.
      destruct (Math_min_max_bounds current c Ha Hb) as (_ & _ & _ & ? & ? & ?).
      done.
Qed.

(** *** The change log *)



(** *** Adding to an array *)

(** C6: in mode add, when the current value is an array that is empty or
    whose elements all have the type of the resolved value, the value is
    appended to the array where it is, and nothing else changes; when some
    element has another type, a warning is written and the tree and the log
    are left as they were. *)
Theorem C6_add_to_array (self : AELikeRuleElement) (w : World) (p : string)
    (elems : list JsValue) :
  reaches_switch self w p ->
  self.(data).(mode) = JStr "add" ->
  current_at w p = JArr elems ->
  let self' := with_path self (JStr p) in
  let change := resolved_change self w p in
  (Forall (fun e => typeof e = typeof change) elems ->
   exists w', applyAELike self w = Some (self', w')
              /\ w'.(actor).(actor_data)
                 = setProperty w.(actor).(actor_data) p (JArr (elems ++ [change]))
              /\ w'.(actor).(autoChanges) = w.(actor).(autoChanges)
              /\ w'.(console) = w.(console))
  /\ (~ Forall (fun e => typeof e = typeof change) elems ->
      exists w', applyAELike self w = Some (self', w')
                 /\ w' = warn self' w "path"
                 /\ w'.(actor) = w.(actor)
                 /\ exists line, w'.(console) = w.(console) ++ [line]).
Proof.
  intros Hr Hm Hcur self' change.
  rewrite (applyAELike_add_array self w p elems Hr Hm Hcur). cbv zeta.
  fold change self'. split; intros Hall.
  - apply same_type_forallb in Hall. rewrite Hall. by eexists.
  - destruct (forallb _ elems) eqn:Hb.
    + by apply same_type_forallb in Hb.
    + eexists. repeat split. by eexists.
Qed.

(** *** Override *)

(** C7: in mode override, when the resolved value has the type of the current
    value, or the current value is undefined, the value is written at the
    resolved path, a plain object having each of its string members resolved
    first; otherwise nothing is written, logged or warned. *)
Theorem C7_override (self : AELikeRuleElement) (w : World) (p : string) :
  reaches_switch self w p ->
  self.(data).(mode) = JStr "override" ->
  let self' := with_path self (JStr p) in
  let change := resolved_change self w p in
  let current := current_at w p in
  (typeof change = typeof current \/ current = JUndefined ->
   exists w', applyAELike self w = Some (self', w')
              /\ w'.(actor).(actor_data)
                 = setProperty w.(actor).(actor_data) p
                     (spec_override_value
                        (resolveInjectedProperties self' w.(actor)) change)
              /\ w'.(console) = w.(console))
  /\ (typeof change <> typeof current -> current <> JUndefined ->
      applyAELike self w = Some (self', w)).
Proof.
  intros Hr Hm self' change current.
  rewrite (applyAELike_override self w p Hr Hm). cbv zeta.
  fold change current self'. split.
  - intros Hty.
    replace (String.eqb (typeof change) (typeof current) || is_undefined current)
      with true.
    2: { destruct Hty as [->| ->]; [by rewrite String.eqb_refl|].
         by rewrite orb_true_r. }
    case_match; by eexists.
  - intros Hty Hdef.
    destruct (String.eqb_spec (typeof change) (typeof current)); [done|].
    by destruct current.
Qed.

(** *** The directive's own record *)

Lemma call_cases (h : Hook) (self : AELikeRuleElement) (w : World) :
  call h self w = applyAELike self w \/ call h self w = Some (self, w).
Proof.
  destruct h; simpl;
    unfold onApplyActiveEffects, beforePrepareData, afterPrepareData;
    case_match; auto.
Qed.

(** A hook applies the directives of its phase that are not ignored, and no
    others. *)
Lemma call_in_phase (h : Hook) (self : AELikeRuleElement) (w : World) :
  call h self w
  = if negb self.(data).(ignored) && str_is self.(data).(phase) (hook_phase h)
    then applyAELike self w else Some (self, w).
Proof. by destruct h. Qed.

Lemma call_ignored (h : Hook) (self : AELikeRuleElement) (w : World) :
  self.(data).(ignored) = true -> call h self w = Some (self, w).
Proof.
  intros Hi. destruct h; simpl;
    unfold onApplyActiveEffects, beforePrepareData, afterPrepareData;
    by rewrite Hi.
Qed.

Lemma with_path_same_directive (self : AELikeRuleElement) (v : JsValue) :
  same_directive (with_path self v) self.
Proof. by repeat split. Qed.

(** C3, as the code has it: every application, through [applyAELike] or a
    hook, leaves the directive's mode, phase, priority, ignored flag,
    predicate and item as they were and does not assign its value, so that a
    value that is not an object is unchanged; the stored path is left alone or
    overwritten with its resolved form. *)
Theorem C3_apply_rewrites_only_path (h : Hook) (self : AELikeRuleElement)
    (w : World) (r : AELikeRuleElement * World) :
  applyAELike self w = Some r \/ call h self w = Some r ->
  same_directive r.1 self
  /\ (typeof_is self.(data).(value) "object" = false ->
      r.1.(data).(value) = self.(data).(value))
  /\ (r.1.(data).(path) = self.(data).(path)
      \/ exists u, self.(data).(path) = JStr u
                   /\ r.1.(data).(path)
                      = JStr (resolveInjectedProperties self w.(actor) u)).
Proof.
  intros Hr.
  assert (applyAELike self w = Some r \/ r = (self, w)) as [Happ| ->].
  { destruct Hr as [Hr|Hr]; [by left|].
    destruct (call_cases h self w) as [E|E]; rewrite E in Hr; [by left|].
    right. congruence. }
  - destruct (applyAELike_self self w r Happ) as [->|(u & Hu & ->)].
    + repeat split; auto.
    + split; [apply with_path_same_directive|]. split; [done|].
      right. by exists u.
  - repeat split; auto.
Qed.

(** *** The ignored flag *)

Lemma constructor_validated (src : AELikeSource) (it : ItemPF2e) (w : World) :
  validated (constructor src it w).1.
Proof.
  unfold constructor, validated. cbv zeta.
  set (self := RuleElementPF2e_constructor _ it).
  destruct (Number_isNaN (priority (data self))); [by left|].
  match goal with
  | |- context [if ?b then (set_ignored self, ?w1) else (self, ?w2)] =>
      destruct b eqn:Hvalid
  end; [by left|].
  right. simpl. apply negb_false_iff, andb_true_iff in Hvalid as [Hvalid _].
  apply andb_true_iff in Hvalid as [Hstr _].
  change (path (data self)) with (src_path src) in Hstr.
  destruct (src_path src); try discriminate. by eexists.
Qed.

Lemma call_validated (h : Hook) (self : AELikeRuleElement) (w : World) :
  validated self ->
  exists r, call h self w = Some r
            /\ r.1.(data).(ignored) = self.(data).(ignored)
            /\ validated r.1.
Proof.
  intros Hv.
  destruct (ignored (data self)) eqn:Hi.
  { exists (self, w). by rewrite call_ignored. }
  destruct Hv as [Hv|(u & Hu)]; [congruence|].
  destruct (call_cases h self w) as [E|E]; rewrite E.
  - destruct (applyAELike_total self w u Hu) as [r Hr]. exists r.
    split; [done|].
    destruct (applyAELike_self self w r Hr) as [->|(u' & _ & ->)].
    + split; [done|]. right. by exists u.
    + split; [done|]. right. by eexists.
  - exists (self, w). repeat split; [done|]. right. by exists u.
Qed.

Lemma cycles_validated (steps : list (Hook * World)) (self : AELikeRuleElement) :
  validated self ->
  exists self', cycles steps self = Some self'
                /\ self'.(data).(ignored) = self.(data).(ignored).
Proof.
  revert self. induction steps as [|[h w] steps IH]; intros self Hv.
  - by exists self.
  - destruct (call_validated h self w Hv) as (r & Hr & Hi & Hv').
    destruct (IH r.1 Hv') as (self' & Hc & Hi').
    exists self'. simpl. rewrite Hr. simpl. split; [done|congruence].
Qed.

(** C8: no application sets the ignored flag.  [applyAELike] returns on every
    rule element with a string path and leaves the flag as it was, whatever
    branch it takes; so does each hook; and a rule element built by the
    constructor goes through any sequence of data-preparation steps with the
    flag the constructor gave it, so that one that passed validation stays
    eligible. *)
Theorem C8_ignored_set_only_by_constructor :
  (forall (self : AELikeRuleElement) (w : World) (u : string),
      self.(data).(path) = JStr u ->
      exists r, applyAELike self w = Some r
                /\ r.1.(data).(ignored) = self.(data).(ignored))
  /\ (forall (h : Hook) (self : AELikeRuleElement) (w : World)
        (r : AELikeRuleElement * World),
        call h self w = Some r ->
        r.1.(data).(ignored) = self.(data).(ignored))
  /\ (forall (src : AELikeSource) (it : ItemPF2e) (w0 : World)
        (steps : list (Hook * World)),
        exists self', cycles steps (constructor src it w0).1 = Some self'
                      /\ self'.(data).(ignored)
                         = (constructor src it w0).1.(data).(ignored)).
Proof.
  split; [|split].
  - intros self w u Hu.
    destruct (applyAELike_total self w u Hu) as [r Hr]. exists r.
    split; [done|].
    by destruct (applyAELike_self self w r Hr) as [->|(u' & _ & ->)].
  - intros h self w r Hr.
    destruct (call_cases h self w) as [E|E]; rewrite E in Hr.
    + by destruct (applyAELike_self self w r Hr) as [->|(u' & _ & ->)].
    + by simplify_eq.
  - intros src it w0 steps. apply cycles_validated, constructor_validated.
Qed.

(** *** The constructor *)

Lemma str_is_false (v : JsValue) (s : string) : v <> JStr s -> str_is v s = false.
Proof.
  destruct v; simpl; try done. intros Hne.
  destruct (String.eqb_spec s0 s); [by subst|done].
Qed.

(** The priority the constructor stores: the source's, or the default. *)
Lemma constructor_priority (src : AELikeSource) (it : ItemPF2e) (w : World) :
  (constructor src it w).1.(data).(priority)
  = nullish src.(src_priority)
      (JNum (if typeof_is src.(src_mode) "string"
                && includes CHANGE_MODES src.(src_mode)
             then (number_of_Z (indexOf CHANGE_MODES src.(src_mode)) * 10 + 10)%float
             else nan)).
Proof.
  unfold constructor. cbv zeta.
  set (self := RuleElementPF2e_constructor _ it).
  destruct (Number_isNaN (priority (data self))); [reflexivity|].
  match goal with
  | |- context [if ?b then (set_ignored self, ?w1) else (self, ?w2)] => destruct b
  end; reflexivity.
Qed.

(** C4: a directive built without a priority gets 10, 20, 30, 40 or 50 when
    its mode is multiply, add, downgrade, upgrade or override; with any other
    mode its priority is NaN, and it is ignored at once, the world being left
    as it was: no warning is written. *)
Theorem C4_default_priority (src : AELikeSource) (it : ItemPF2e) (w : World) :
  src.(src_priority) = JUndefined \/ src.(src_priority) = JNull ->
  let r := constructor src it w in
  (forall (name : string) (prio : float),
      In (name, prio)
         [("multiply", 10%float); ("add", 20%float); ("downgrade", 30%float);
          ("upgrade", 40%float); ("override", 50%float)] ->
      src.(src_mode) = JStr name ->
      r.1.(data).(priority) = JNum prio)
  /\ ((forall name : string, In name CHANGE_MODES -> src.(src_mode) <> JStr name) ->
      r.1.(data).(priority) = JNum nan
      /\ r.1.(data).(ignored) = true
      /\ r.2 = w).
Proof.
  intros Hnone r. split.
  - intros name prio Hin Hmode. subst r. rewrite constructor_priority, Hmode.
    replace (nullish (src_priority src)) with (fun b : JsValue => b)
      by (destruct Hnone as [->| ->]; reflexivity).
    simpl in Hin.
    repeat (destruct Hin as [[= <- <-]|Hin]; [reflexivity|]). done.
  - intros Hother.
    assert (includes CHANGE_MODES (src_mode src) = false) as Hinc.
    { unfold includes, CHANGE_MODES. simpl.
      rewrite !str_is_false; [done|..]; apply Hother; simpl; auto 10. }
    assert (r.1.(data).(priority) = JNum nan) as Hprio.
    { subst r. rewrite constructor_priority, Hinc, andb_false_r.
      by destruct Hnone as [->| ->]. }
    split; [done|]. subst r. unfold constructor in *. cbv zeta in *.
    set (self := RuleElementPF2e_constructor _ it) in *.
    assert (priority (data self) = JNum nan) as Hself.
    { subst self. unfold RuleElementPF2e_constructor.
      cbn [data priority src_priority src_mode].
      rewrite Hinc, andb_false_r. by destruct Hnone as [->| ->]. }
    by rewrite Hself.
Qed.

(** The path check of the constructor accepts every string: it compares the
    string [typeof] returns with the value [undefined], so whatever the three
    candidate paths resolve to, no ["path"] warning is written and the rule
    element is ignored only for its priority or its value. *)
Lemma constructor_accepts_every_string_path (src : AELikeSource) (it : ItemPF2e)
    (w : World) (u : string) :
  src.(src_path) = JStr u ->
  let r := constructor src it w in
  (r.1.(data).(ignored) = false /\ r.2 = w)
  \/ (r.1.(data).(ignored) = true
      /\ (r.2 = w \/ r.2 = warn r.1 w "value")).
Proof.
  intros Hu r. subst r. unfold constructor. cbv zeta.
  set (self := RuleElementPF2e_constructor _ it).
  destruct (Number_isNaN (priority (data self))); [right; auto|].
  change (path (data self)) with (src_path src). rewrite Hu.
  cbn [typeof_is typeof String.eqb Ascii.eqb Bool.eqb existsb is_undefined negb orb andb].
  match goal with
  | |- context [if negb ?b then (set_ignored self, _) else _] => destruct b
  end; simpl; [left|right]; auto.
Qed.

End Properties.

(** ** The theorems at work on the example data *)

Section Runs.
Import Examples.

Lemma C4_default_priority_witness :
  (@constructor plain (directive "add" hp_max (JNum 5)) toughness
     (world (sheet (JNum 20) (JArr [])))).1.(data).(priority) = JNum 20
  /\ (@constructor plain (directive "subtract" hp_max (JNum 5)) toughness
        (world (sheet (JNum 20) (JArr [])))).1.(data).(ignored) = true.
Proof.
  split.
  - apply (proj1 (@C4_default_priority plain (directive "add" hp_max (JNum 5))
                    toughness (world (sheet (JNum 20) (JArr [])))
                    (or_introl eq_refl)) "add" 20%float).
    + simpl. auto.
    + reflexivity.
  - apply (proj2 (@C4_default_priority plain (directive "subtract" hp_max (JNum 5))
                    toughness (world (sheet (JNum 20) (JArr [])))
                    (or_introl eq_refl))).
    intros name Hin. simpl in Hin.
    repeat (destruct Hin as [<-|Hin]; [discriminate|]). destruct Hin.
Defined.

Lemma C5_arithmetic_modes_witness :
  exists w',
    @applyAELike plain (element "multiply" 10 hp_max (JNum 2))
      (world (sheet (JNum 5) (JArr [])))
    = Some (element "multiply" 10 hp_max (JNum 2), w')
    /\ Fixture.get w'.(actor).(actor_data) hp_max = JNum 10.
Proof.
  destruct (@C5_arithmetic_modes plain (element "multiply" 10 hp_max (JNum 2))
              (world (sheet (JNum 5) (JArr []))) hp_max Multiply 2%float)
    as (w' & written & Happ & Htree & Hop & _).
  - repeat split; reflexivity.
  - reflexivity.
  - reflexivity.
  - reflexivity.
  - exists w'. split; [exact Happ|]. rewrite Htree, Hop. reflexivity.
Defined.

(** C1: the constructor on the directive [{mode: "add", path:
    "no.such.field", value: 5}], for an actor on whose data neither
    [no.such.field] nor [no.such] nor [no] resolves to anything: no warning is
    written and the directive is not ignored. *)
Theorem C1_unresolvable_path_is_accepted :
  let tree := sheet (JNum 20) (JArr []) in
  drop_last_segment "no.such.field" = "no.such"
  /\ drop_last_two_segments "no.such.field" = "no"
  /\ Forall (fun p => @getProperty plain tree p = JUndefined)
            ["no.such.field"; "no.such"; "no"]
  /\ @constructor plain (directive "add" "no.such.field" (JNum 5)) toughness (world tree)
     = (element "add" 20 "no.such.field" (JNum 5), world tree)
  /\ (element "add" 20 "no.such.field" (JNum 5)).(data).(ignored) = false
  /\ (world tree).(console) = [].
Proof. repeat split; repeat constructor. Qed.



(** C3 refuted: applying a directive whose path holds a placeholder replaces
    the stored path by the resolved one. *)
Lemma C3_apply_overwrites_stored_path :
  exists r,
    @onApplyActiveEffects injecting
      (element "add" 20 "data.attributes.{item|flags.pf2e.stat}.max" (JNum 5))
      (world (sheet (JNum 20) (JArr []))) = Some r
    /\ r.1.(data).(path) = JStr "data.attributes.hp.max"
    /\ r.1.(data).(path)
       <> (element "add" 20 "data.attributes.{item|flags.pf2e.stat}.max"
             (JNum 5)).(data).(path).
Proof. eexists. repeat split. discriminate. Qed.

Lemma C3_apply_rewrites_only_path_witness :
  exists r,
    @applyAELike injecting
      (element "add" 20 "data.attributes.{item|flags.pf2e.stat}.max" (JNum 5))
      (world (sheet (JNum 20) (JArr []))) = Some r
    /\ r.1.(data).(mode) = JStr "add"
    /\ r.1.(data).(value) = JNum 5
    /\ r.1.(data).(path) = JStr hp_max.
Proof.
  eexists. split; [reflexivity|].
  destruct (@C3_apply_rewrites_only_path injecting OnApplyActiveEffects
              (element "add" 20 "data.attributes.{item|flags.pf2e.stat}.max" (JNum 5))
              (world (sheet (JNum 20) (JArr []))) _ (or_introl eq_refl))
    as ((Hmode & _) & Hvalue & _).
  split; [exact Hmode|]. split; [exact (Hvalue eq_refl)|]. reflexivity.
Defined.

Lemma C6_add_to_array_witness :
  (exists w',
      @applyAELike plain (element "add" 20 languages (JNum 3))
        (world (sheet (JNum 20) (JArr [JNum 1; JNum 2])))
      = Some (element "add" 20 languages (JNum 3), w')
      /\ Fixture.get w'.(actor).(actor_data) languages
         = JArr [JNum 1; JNum 2; JNum 3]
      /\ w'.(actor).(autoChanges) = ∅)
  /\ (exists w',
        @applyAELike plain (element "add" 20 languages (JNum 3))
          (world (sheet (JNum 20) (JArr [JStr "a"])))
        = Some (element "add" 20 languages (JNum 3), w')
        /\ w'.(actor) = (world (sheet (JNum 20) (JArr [JStr "a"]))).(actor)
        /\ length w'.(console) = 1%nat).
Proof.
  split.
  - destruct (proj1 (@C6_add_to_array plain (element "add" 20 languages (JNum 3))
                       (world (sheet (JNum 20) (JArr [JNum 1; JNum 2]))) languages
                       [JNum 1; JNum 2]
                       (conj eq_refl (conj eq_refl eq_refl)) eq_refl eq_refl))
      as (w' & Happ & Htree & Hlog & _).
    + repeat constructor.
    + exists w'. split; [exact Happ|]. rewrite Htree, Hlog. split; reflexivity.
  - destruct (proj2 (@C6_add_to_array plain (element "add" 20 languages (JNum 3))
                       (world (sheet (JNum 20) (JArr [JStr "a"]))) languages
                       [JStr "a"]
                       (conj eq_refl (conj eq_refl eq_refl)) eq_refl eq_refl))
      as (w' & Happ & Hw & Hactor & _).
    + intros Hall. inversion Hall as [|? ? Hty _]. discriminate Hty.
    + exists w'. split; [exact Happ|]. split; [exact Hactor|].
      rewrite Hw. reflexivity.
Defined.

Lemma C7_override_witness :
  (exists w',
      @applyAELike naming
        (element "override" 50 "data.details.title" (JObj [("a", JStr "{item|name}")]))
        (world (sheet (JNum 20) (JArr [])))
      = Some (element "override" 50 "data.details.title"
                (JObj [("a", JStr "{item|name}")]), w')
      /\ Fixture.get w'.(actor).(actor_data) "data.details.title"
         = JObj [("a", JStr "Toughness")])
  /\ @applyAELike naming
       (element "override" 50 hp_max (JObj [("a", JStr "{item|name}")]))
       (world (sheet (JStr "x") (JArr [])))
     = Some (element "override" 50 hp_max (JObj [("a", JStr "{item|name}")]),
             world (sheet (JStr "x") (JArr []))).
Proof.
  split.
  - destruct (proj1 (@C7_override naming
                       (element "override" 50 "data.details.title"
                          (JObj [("a", JStr "{item|name}")]))
                       (world (sheet (JNum 20) (JArr []))) "data.details.title"
                       (conj eq_refl (conj eq_refl eq_refl)) eq_refl)
                (or_intror eq_refl)) as (w' & Happ & Htree & _).
    exists w'. split; [exact Happ|]. rewrite Htree. reflexivity.
  - apply (proj2 (@C7_override naming
                    (element "override" 50 hp_max (JObj [("a", JStr "{item|name}")]))
                    (world (sheet (JStr "x") (JArr []))) hp_max
                    (conj eq_refl (conj eq_refl eq_refl)) eq_refl));
      discriminate.
Defined.

Lemma C8_ignored_set_only_by_constructor_witness :
  exists r,
    @applyAELike plain (element "multiply" 10 hp_max (JStr "two"))
      (world (sheet (JNum 20) (JArr []))) = Some r
    /\ r.1.(data).(ignored) = false
    /\ length r.2.(console) = 1%nat.
Proof.
  destruct (proj1 (@C8_ignored_set_only_by_constructor plain)
              (element "multiply" 10 hp_max (JStr "two"))
              (world (sheet (JNum 20) (JArr []))) hp_max eq_refl)
    as (r & Happ & Hi).
  exists r. split; [exact Happ|]. split; [exact Hi|].
  injection Happ as <-. reflexivity.
Defined.

Lemma C9_silent_skip_witness :
  @applyAELike plain (with_predicate (element "add" 20 hp_max (JNum 5)) armored)
    (world (sheet (JNum 20) (JArr [])))
  = Some (with_predicate (element "add" 20 hp_max (JNum 5)) armored,
          world (sheet (JNum 20) (JArr [])))
  /\ exists self',
      @applyAELike unresolving
        (element "add" 20 "data.attributes.{item|flags.pf2e.stat}.max" (JNum 5))
        (world (sheet (JNum 20) (JArr [])))
      = Some (self', world (sheet (JNum 20) (JArr []))).
Proof.
  split.
  - apply (proj1 (@C9_silent_skip plain
                    (with_predicate (element "add" 20 hp_max (JNum 5)) armored)
                    (world (sheet (JNum 20) (JArr []))))).
    reflexivity.
  - eexists.
    apply (proj2 (@C9_silent_skip unresolving
                    (element "add" 20 "data.attributes.{item|flags.pf2e.stat}.max"
                       (JNum 5))
                    (world (sheet (JNum 20) (JArr []))))
             "data.attributes.undefined.max"); reflexivity.
Defined.


End Runs.

(** ** Further properties of the code *)

(** *** The regular expressions *)

Lemma chars_append (a b : string) :
  list_ascii_of_string (a +:+ b) = list_ascii_of_string a ++ list_ascii_of_string b.
Proof. induction a as [|c a IH]; simpl; [done|by rewrite IH]. Qed.

Lemma chars_nonempty (w : string) : w <> "" -> list_ascii_of_string w <> [].
Proof. by destruct w. Qed.

Lemma string_of_chars (l : list ascii) (s : string) :
  l = list_ascii_of_string s -> string_of_list_ascii l = s.
Proof. intros ->. apply string_of_list_ascii_of_string. Qed.

Lemma rev_nonempty {A : Type} (l : list A) :
  l <> [] -> exists x l', rev l = x :: l'.
Proof.
  intros Hl. destruct (rev l) as [|x l'] eqn:E; [|by eauto].
  apply (f_equal (@rev A)) in E. rewrite rev_involutive in E. done.
Qed.

(** [span] stops at the first character that fails the test. *)
Lemma span_run (f : ascii -> bool) (run tail : list ascii) :
  Forall (fun c => f c = true) run ->
  match tail with [] => True | c :: _ => f c = false end ->
  span f (run ++ tail) = (run, tail).
Proof.
  intros Hrun Htail. induction Hrun as [|c run Hc _ IH]; simpl.
  - destruct tail as [|c tail]; simpl; [done|]. by rewrite Htail.
  - cbv beta in Hc. by rewrite Hc, IH.
Qed.

Lemma span_word_all (w : string) :
  Forall (fun c => is_word_char c = true) (list_ascii_of_string w) ->
  span is_word_char (rev (list_ascii_of_string w))
  = (rev (list_ascii_of_string w), []).
Proof.
  intros Hw. rewrite <- (app_nil_r (rev _)) at 1.
  apply span_run; [by apply List.Forall_rev|done].
Qed.

(** X4: the candidate paths of the constructor's path check.  For a path
    that ends in two dot-separated words, [s.w1.w2], the two replacements give
    [s.w1] and [s]; a path of one word is left as it is by both; and a path of
    exactly two words, [w1.w2], gives the empty string as its third
    candidate. *)
Theorem candidate_paths (s w1 w2 : string) :
  is_word w1 -> is_word w2 ->
  drop_last_segment (s +:+ "." +:+ w1 +:+ "." +:+ w2) = s +:+ "." +:+ w1
  /\ drop_last_two_segments (s +:+ "." +:+ w1 +:+ "." +:+ w2) = s
  /\ drop_last_segment w1 = w1
  /\ drop_last_two_segments w1 = w1
  /\ drop_last_two_segments (w1 +:+ "." +:+ w2) = "".
Proof.
  intros [Hn1 Hw1] [Hn2 Hw2].
  assert (forall pre : list ascii,
             span is_word_char (rev (list_ascii_of_string w2) ++ "."%char :: pre)
             = (rev (list_ascii_of_string w2), "."%char :: pre)) as Hspan2.
  { intros pre. apply span_run; [by apply List.Forall_rev|done]. }
  assert (forall pre : list ascii,
             span is_word_char (rev (list_ascii_of_string w1) ++ "."%char :: pre)
             = (rev (list_ascii_of_string w1), "."%char :: pre)) as Hspan1.
  { intros pre. apply span_run; [by apply List.Forall_rev|done]. }
  destruct (rev_nonempty _ (chars_nonempty _ Hn1)) as (c1 & l1 & E1).
  destruct (rev_nonempty _ (chars_nonempty _ Hn2)) as (c2 & l2 & E2).
  unfold drop_last_segment, drop_last_two_segments.
  rewrite !chars_append, !rev_app_distr. simpl.
  rewrite <- !app_assoc. simpl.
  rewrite !Hspan2, !Hspan1, (span_word_all w1 Hw1), E2, E1.
  repeat split.
  - rewrite <- E1. apply string_of_chars.
    rewrite rev_app_distr. simpl. rewrite !rev_involutive, !chars_append.
    by rewrite <- app_assoc.
  - apply string_of_chars. by rewrite rev_involutive.
Qed.

Lemma undefined_token_segment (before after : list ascii) (prev_word : bool) :
  match after with [] => True | c :: _ => is_word_char c = false end ->
  undefined_token_from prev_word
    (before ++ "."%char :: list_ascii_of_string "undefined" ++ after) = true.
Proof.
  intros Hafter. revert prev_word.
  induction before as [|c before IH]; intros prev_word.
  - cbn. rewrite andb_false_r. change (is_word_char ".") with false.
    destruct after as [|d after]; [done|]. by rewrite Hafter.
  - change ((c :: before) ++ ?l) with (c :: (before ++ l)).
    cbn [undefined_token_from]. rewrite IH. apply orb_true_r.
Qed.

(** X16: the test that stops [applyAELike] after resolution finds the token
    in every path that has a segment [undefined] after a dot, at the end of
    the path or before another dot, whatever comes before and after. *)
Theorem undefined_segment_detected (before after : string) :
  has_undefined_token (before +:+ ".undefined") = true
  /\ has_undefined_token (before +:+ ".undefined." +:+ after) = true.
Proof.
  unfold has_undefined_token. rewrite !chars_append. split.
  - by apply (undefined_token_segment _ []).
  - by apply (undefined_token_segment _ ("."%char :: _)).
Qed.

(** *** The level of a log entry *)

Lemma Z_of_zeros (zeros : list ascii) :
  Forall (fun c => c = "0"%char) zeros -> Z_of_digits zeros = 0%Z.
Proof.
  unfold Z_of_digits.
  induction 1 as [|c l -> _ IH]; [done|]. exact IH.
Qed.

(** X15: the level logged for a feat.  Without a location it is the feat's
    own level; with a location that ends in a hyphen and digits it is the
    number the digits write, unless that number is zero (or NaN), in which
    case it is again the feat's level: a location [tag-0] does not give level
    0. *)
Theorem feat_level_from_location (it : ItemPF2e) :
  it.(item_isFeat) = true ->
  (it.(item_location) = None -> entry_level it = it.(item_level))
  /\ (forall tag digits : string,
         it.(item_location) = Some (tag +:+ "-" +:+ digits) ->
         is_digits digits ->
         let n := number_of_Z (Z_of_digits (list_ascii_of_string digits)) in
         entry_level it = if truthy_number n then JNum n else it.(item_level))
  /\ (forall tag zeros : string,
         it.(item_location) = Some (tag +:+ "-" +:+ zeros) ->
         zeros <> "" ->
         Forall (fun c => c = "0"%char) (list_ascii_of_string zeros) ->
         entry_level it = it.(item_level)).
Proof.
  intros Hfeat.
  assert (forall tag digits : string,
             is_digits digits ->
             trailing_number (tag +:+ "-" +:+ digits)
             = number_of_Z (Z_of_digits (list_ascii_of_string digits))) as Hparse.
  { intros tag digits [Hne Hds]. unfold trailing_number.
    rewrite !chars_append, !rev_app_distr. simpl. rewrite <- app_assoc. simpl.
    rewrite span_run; [|by apply List.Forall_rev|done].
    destruct (rev_nonempty _ (chars_nonempty _ Hne)) as (d & l & E).
    rewrite E. cbv iota beta. change (rev l ++ [d]) with (rev (d :: l)).
    by rewrite <- E, rev_involutive. }
  unfold entry_level. rewrite Hfeat. split; [|split].
  - by intros ->.
  - intros tag digits -> Hds. simpl. by rewrite Hparse.
  - intros tag zeros -> Hne Hz. simpl. rewrite Hparse.
    + by rewrite (Z_of_zeros _ Hz).
    + split; [done|]. eapply Forall_impl; [exact Hz|]. by intros c ->.
Qed.

Section Further.
Context `{Host}.

Lemma str_is_true (v : JsValue) (s : string) : str_is v s = true -> v = JStr s.
Proof.
  destruct v; simpl; try done. intros Heq. by apply String.eqb_eq in Heq as ->.
Qed.

Lemma with_path_stored (self : AELikeRuleElement) (p : string) :
  self.(data).(path) = JStr p -> with_path self (JStr p) = self.
Proof. destruct self as [[] ?]. simpl. by intros ->. Qed.

(** *** The constructor *)

(** The constructor, the two checks read as tests on the source: the path
    check fails exactly for a path that is not a string, the value check
    exactly for an undefined value. *)
Lemma constructor_result (src : AELikeSource) (it : ItemPF2e) (w : World) :
  constructor src it w
  = let self := RuleElementPF2e_constructor (defaulted src) it in
    if Number_isNaN (defaulted src).(src_priority) then (set_ignored self, w)
    else
      let badPath := negb (typeof_is src.(src_path) "string") in
      let badValue := typeof_is src.(src_value) "undefined" in
      (if badPath || badValue then set_ignored self else self,
       with_console w
         (w.(console)
          ++ (if badPath then [warning_line it "path"] else [])
          ++ (if badValue then [warning_line it "value"] else []))).
Proof.
  unfold constructor. cbv zeta. fold (defaulted src).
  set (self := RuleElementPF2e_constructor (defaulted src) it).
  change (priority (data self)) with (src_priority (defaulted src)).
  destruct (Number_isNaN (src_priority (defaulted src))); [done|].
  change (path (data self)) with (src_path src).
  change (value (data self)) with (src_value src).
  destruct w as [a c].
  destruct (src_path src), (src_value src); cbn;
    unfold warn, with_console; cbn; rewrite ?app_nil_r, <- ?app_assoc; reflexivity.
Qed.

(** X1: what makes the constructor ignore a directive.  The flag it leaves
    is true exactly when the stored priority is the number NaN, or the path is
    not a string, or the value is undefined; nothing on the actor's data plays
    a part. *)
Theorem constructor_ignored_iff (src : AELikeSource) (it : ItemPF2e) (w : World) :
  (constructor src it w).1.(data).(ignored)
  = Number_isNaN (constructor src it w).1.(data).(priority)
    || negb (typeof_is src.(src_path) "string")
    || typeof_is src.(src_value) "undefined".
Proof.
  rewrite (constructor_priority src it w).
  change (nullish _ _) with (src_priority (defaulted src)).
  rewrite constructor_result. cbv zeta.
  destruct (Number_isNaN (src_priority (defaulted src))); [done|].
  by destruct (typeof_is (src_path src) "string"),
              (typeof_is (src_value src) "undefined").
Qed.

(** X2: what the constructor writes.  It never touches the actor; to the
    console it adds nothing when the priority is NaN, and otherwise the
    ["path"] line for a path that is not a string followed by the ["value"]
    line for an undefined value, both when both fail; and whenever it adds a
    line the directive is ignored. *)
Theorem constructor_warnings (src : AELikeSource) (it : ItemPF2e) (w : World) :
  (constructor src it w).2.(actor) = w.(actor)
  /\ exists extra : list string,
       (constructor src it w).2.(console) = w.(console) ++ extra
       /\ extra
          = (if Number_isNaN (constructor src it w).1.(data).(priority) then []
             else (if typeof_is src.(src_path) "string" then []
                   else [warning_line it "path"])
                  ++ (if typeof_is src.(src_value) "undefined"
                      then [warning_line it "value"] else []))
       /\ (extra = [] \/ (constructor src it w).1.(data).(ignored) = true).
Proof.
  rewrite (constructor_priority src it w).
  change (nullish _ _) with (src_priority (defaulted src)).
  rewrite constructor_result. cbv zeta.
  destruct (Number_isNaN (src_priority (defaulted src))).
  - split; [done|]. exists []. rewrite app_nil_r. auto.
  - split; [done|]. eexists. split; [reflexivity|].
    destruct (typeof_is (src_path src) "string"),
             (typeof_is (src_value src) "undefined"); simpl; auto.
Qed.

(** X3: with an explicit priority the mode is not consulted.  A priority
    that is neither undefined nor null is stored as it is, and the
    constructor's verdict and warnings are the same for any other mode in the
    source, recognised or not. *)
Theorem explicit_priority_ignores_mode (src : AELikeSource) (it : ItemPF2e)
    (w : World) (m : JsValue) :
  src.(src_priority) <> JUndefined -> src.(src_priority) <> JNull ->
  (constructor src it w).1.(data).(priority) = src.(src_priority)
  /\ (constructor (with_mode src m) it w).1.(data).(ignored)
     = (constructor src it w).1.(data).(ignored)
  /\ (constructor (with_mode src m) it w).2 = (constructor src it w).2.
Proof.
  intros Hu Hn.
  assert (forall s : AELikeSource,
             src_priority s = src_priority src ->
             src_priority (defaulted s) = src_priority src) as Hprio.
  { intros s Hs. unfold defaulted. simpl. rewrite Hs.
    by destruct (src_priority src). }
  split.
  { rewrite (constructor_priority src it w).
    change (nullish _ _) with (src_priority (defaulted src)). by apply Hprio. }
  rewrite !constructor_result. cbv zeta.
  rewrite (Hprio src eq_refl), (Hprio (with_mode src m) eq_refl).
  change (src_path (with_mode src m)) with (src_path src).
  change (src_value (with_mode src m)) with (src_value src).
  destruct (Number_isNaN (src_priority src)); [done|].
  by destruct (typeof_is (src_path src) "string"),
              (typeof_is (src_value src) "undefined").
Qed.

(** *** The hooks *)

(** X5: a directive built without a phase belongs to [onApplyActiveEffects]:
    its phase is ["applyAEs"], the two other hooks leave it and the world
    alone, and [onApplyActiveEffects] is [applyAELike] unless the directive is
    ignored. *)
Theorem default_phase_runs_with_active_effects (src : AELikeSource)
    (it : ItemPF2e) (w : World) :
  src.(src_phase) = JUndefined \/ src.(src_phase) = JNull ->
  let self := (constructor src it w).1 in
  self.(data).(phase) = JStr "applyAEs"
  /\ forall w' : World,
       beforePrepareData self w' = Some (self, w')
       /\ afterPrepareData self w' = Some (self, w')
       /\ onApplyActiveEffects self w'
          = if self.(data).(ignored) then Some (self, w') else applyAELike self w'.
Proof.
  intros Hphase self.
  assert (self.(data).(phase) = JStr "applyAEs") as Hp.
  { subst self. rewrite constructor_result. cbv zeta.
    repeat case_match; simpl; by destruct Hphase as [->| ->]. }
  split; [done|]. intros w'.
  unfold beforePrepareData, afterPrepareData, onApplyActiveEffects.
  rewrite Hp. simpl. rewrite andb_false_r, andb_true_r.
  by destruct (ignored (data self)).
Qed.

(** X6: of two different hooks at most one acts on a directive: the other
    returns the directive and the world as they are, whatever the phase
    stored. *)
Theorem hooks_exclusive (self : AELikeRuleElement) (w : World) (h1 h2 : Hook) :
  h1 <> h2 ->
  call h1 self w = Some (self, w) \/ call h2 self w = Some (self, w).
Proof.
  intros Hne. rewrite !call_in_phase.
  destruct (negb (ignored (data self))); simpl; [|by left].
  destruct (str_is (phase (data self)) (hook_phase h1)) eqn:E1; [|by left].
  destruct (str_is (phase (data self)) (hook_phase h2)) eqn:E2; [|by right].
  apply str_is_true in E1, E2. rewrite E1 in E2.
  destruct h1, h2; done.
Qed.

(** *** What an application does to the world *)


(** X8: an application does one of three things to the world: nothing; or
    it writes the ["path"] warning and leaves the actor as it was; or it
    writes one value at the resolved path and leaves the console as it was.
    So a warning never comes with a write, and nothing is written anywhere but
    at the resolved path. *)
Theorem applyAELike_world (self : AELikeRuleElement) (w : World)
    (r : AELikeRuleElement * World) :
  applyAELike self w = Some r ->
  r.2 = w
  \/ r.2 = warn r.1 w "path"
  \/ exists (p : string) (v : JsValue),
       resolved_path self w = Some p
       /\ r.2.(actor).(actor_data) = setProperty w.(actor).(actor_data) p v
       /\ r.2.(console) = w.(console).
Proof.
  destruct (predicate_passes self w) eqn:Hpred.
  2: { rewrite applyAELike_predicate_false by done. intros [= <-]. by left. }
  destruct (path (data self)) as [| | | |u| |] eqn:Hu.
  all: try (unfold applyAELike, predicate_passes in *; rewrite Hu;
            destruct (predicate (data self)); [rewrite Hpred|]; discriminate).
  rewrite (applyAELike_switch self w u Hpred Hu). cbv zeta.
  unfold resolved_path. rewrite Hu.
  set (p := resolveInjectedProperties self (actor w) u).
  intros Hr.
  repeat case_match; simplify_eq; simpl; auto.
  all: right; right; by eexists p, _.
Qed.

(** X9: an arithmetic mode whose precondition fails warns and does nothing
    else.  When the resolved value is not a number, or the current value is
    not of the kind the mode accepts, and (for add) the current value is not
    an array, the result is the world with the ["path"] warning added. *)
Theorem arithmetic_mismatch_warns (self : AELikeRuleElement) (w : World)
    (p : string) (m : ArithmeticMode) :
  reaches_switch self w p ->
  self.(data).(mode) = JStr (mode_name m) ->
  spec_precondition m (current_at w p)
  && typeof_is (resolved_change self w p) "number" = false ->
  m <> Add \/ isArray (current_at w p) = false ->
  applyAELike self w
  = Some (with_path self (JStr p), warn (with_path self (JStr p)) w "path").
Proof.
  intros Hr Hm Hbad Harr.
  destruct (applyAELike_reached _ _ _ Hr) as (u & Hu & Hp & Htok & Hpred).
  rewrite (applyAELike_switch self w u Hpred Hu). cbv zeta.
  rewrite Htok, Hp, Hm.
  destruct m; cbn -[spec_precondition typeof_is]; rewrite Hbad; try done.
  destruct Harr as [|Harr]; [done|]. by destruct (current_at w p).
Qed.


(** X11: downgrade never raises and upgrade never lowers.  When the current
    value (or 0 for undefined) and the change are not NaN, the value written
    is one of the two, at most both for downgrade and at least both for
    upgrade; when either is NaN, NaN is written. *)
Theorem downgrade_upgrade_bounds (self : AELikeRuleElement) (w : World)
    (p : string) (m : ArithmeticMode) (c : float) :
  reaches_switch self w p ->
  self.(data).(mode) = JStr (mode_name m) ->
  m = Downgrade \/ m = Upgrade ->
  resolved_change self w p = JNum c ->
  spec_precondition m (current_at w p) = true ->
  let current := as_number (nullish (current_at w p) (JNum 0)) in
  exists (w' : World) (v : float),
    applyAELike self w = Some (with_path self (JStr p), w')
    /\ w'.(actor).(actor_data) = setProperty w.(actor).(actor_data) p (JNum v)
    /\ (is_nan current || is_nan c = true -> v = nan)
    /\ (is_nan current = false -> is_nan c = false ->
        (v = current \/ v = c)
        /\ (m = Downgrade -> (v <=? current)%float = true /\ (v <=? c)%float = true)
        /\ (m = Upgrade -> (current <=? v)%float = true /\ (c <=? v)%float = true)).
Proof.
  intros Hr Hm Hdu Hc Hpre current.
  rewrite (applyAELike_arithmetic self w p m c Hr Hm Hc Hpre).
  eexists _, _. split; [reflexivity|]. split; [reflexivity|].
  unfold spec_operation. cbv zeta.
  assert (match current_at w p with JNum n => n | _ => 0%float end = current) as ->.
  { subst current. destruct (current_at w p), m, Hdu; done. }
  split.
  - intros Hnan. by destruct Hdu as [-> | ->]; simpl;
      unfold Math_min, Math_max; rewrite Hnan.
  - intros Ha Hb.
    destruct (Math_min_max_bounds current c Ha Hb)
      as (Hmin & Hmin1 & Hmin2 & Hmax & Hmax1 & Hmax2).
    destruct Hdu as [-> | ->]; simpl; repeat split; done.
Qed.


(** *** The change log *)

(** X13: [logChange] only appends.  Whatever the log it finds, the entries
    under any key are afterwards those that were there followed by at most
    one new entry, a key other than the stored path keeps what it had, and the
    console is as it was. *)
Theorem logChange_appends (self : AELikeRuleElement) (w w' : World)
    (v : JsValue) (k : string) :
  logChange self w v = Some w' ->
  exists added : list AutoChangeEntry,
    default [] (w'.(actor).(autoChanges) !! k)
    = default [] (w.(actor).(autoChanges) !! k) ++ added
    /\ (length added <= 1)%nat
    /\ (self.(data).(path) <> JStr k ->
        w'.(actor).(autoChanges) !! k = w.(actor).(autoChanges) !! k)
    /\ w'.(console) = w.(console).
Proof.
  unfold logChange. case_match.
  - intros [= <-]. exists []. rewrite app_nil_r. simpl. auto with lia.
  - destruct (path (data self)) as [| | | |key| |]; try discriminate.
    intros [= <-]. simpl. destruct (decide (key = k)) as [->|Hne].
    + eexists [_]. rewrite lookup_insert_eq. simpl. split; [done|].
      split; [lia|]. split; [|done]. by intros [].
    + exists []. rewrite lookup_insert_ne, app_nil_r by done. simpl.
      auto with lia.
Qed.


(** *** The stored path over time *)

(** X17: a resolved path stays.  Once the stored path is one that
    resolution returns unchanged, every further application returns with that
    same path stored, the rest of the directive's record being left as
    [applyAELike] always leaves it. *)
Theorem stored_path_is_stable (self : AELikeRuleElement) (p : string) :
  self.(data).(path) = JStr p ->
  (forall a : ActorPF2e, resolveInjectedProperties self a p = p) ->
  forall w : World,
    exists r, applyAELike self w = Some r
              /\ r.1.(data).(path) = JStr p
              /\ same_directive r.1 self.
Proof.
  intros Hp Hfix w.
  destruct (applyAELike_total self w p Hp) as [r Hr].
  exists r. split; [done|].
  destruct (applyAELike_self self w r Hr) as [->|(u & Hu & ->)].
  - split; [done|]. by repeat split.
  - rewrite Hp in Hu. injection Hu as <-. rewrite Hfix.
    split; [done|]. apply with_path_same_directive.
Qed.

(** X18: an unresolved reference is kept.  When resolution leaves an
    [undefined] token, the application stores that path in the directive and
    returns the world unchanged; if resolution returns the stored path as it
    is from then on, every later application and every hook, in any world,
    does nothing, although the directive is not marked ignored. *)
Theorem unresolved_path_sticks (self : AELikeRuleElement) (w : World) (p : string) :
  predicate_passes self w = true ->
  resolved_path self w = Some p ->
  has_undefined_token p = true ->
  (forall a : ActorPF2e, resolveInjectedProperties (with_path self (JStr p)) a p = p) ->
  applyAELike self w = Some (with_path self (JStr p), w)
  /\ (with_path self (JStr p)).(data).(ignored) = self.(data).(ignored)
  /\ forall (steps : list (Hook * World)),
       cycles steps (with_path self (JStr p)) = Some (with_path self (JStr p))
       /\ forall (h : Hook) (w' : World),
            call h (with_path self (JStr p)) w' = Some (with_path self (JStr p), w').
Proof.
  intros Hpred Hp Htok Hfix.
  set (self' := with_path self (JStr p)).
  assert (forall w', applyAELike self' w' = Some (self', w')) as Hdead.
  { intros w'. destruct (predicate_passes self' w') eqn:Hpred'.
    2: by apply applyAELike_predicate_false.
    rewrite (applyAELike_switch self' w' p Hpred' eq_refl). cbv zeta.
    by rewrite Hfix, Htok. }
  assert (forall h w', call h self' w' = Some (self', w')) as Hcall.
  { intros h w'. destruct (call_cases h self' w') as [->| ->]; [apply Hdead|done]. }
  split; [|split; [done|intros steps; split; [|done]]].
  - unfold resolved_path in Hp.
    destruct (path (data self)) as [| | | |u| |] eqn:Hu; simplify_eq.
    rewrite (applyAELike_switch self w u Hpred Hu). cbv zeta. by rewrite Htok.
  - induction steps as [|[h w'] steps IH]; [done|].
    simpl. rewrite Hcall. simpl. exact IH.
Qed.

End Further.

(** ** The further properties at work on the example data *)

Lemma member_set_member (k : string) (v : JsValue) (ms : list (string * JsValue)) :
  Fixture.member k (Fixture.set_member k v ms) = Some v.
Proof.
  induction ms as [|[k' v'] ms IH]; simpl.
  - by rewrite String.eqb_refl.
  - destruct (String.eqb k k') eqn:E; simpl; [by rewrite String.eqb_refl|].
    by rewrite E.
Qed.

Lemma walk_assign (keys : list string) (tree v : JsValue) :
  Fixture.walk (Fixture.assign tree keys v) keys = v.
Proof.
  revert tree. induction keys as [|k keys IH]; intros tree; simpl; [done|].
  rewrite member_set_member. apply IH.
Qed.

(** The example host reads back what it wrote. *)
Lemma Fixture_get_set (tree : JsValue) (key : string) (v : JsValue) :
  key <> "" -> Fixture.get (Fixture.set tree key v) key = v.
Proof.
  intros Hkey. unfold Fixture.get, Fixture.set.
  destruct (String.eqb_spec key ""); [done|]. apply walk_assign.
Qed.

Section FurtherRuns.
Import Examples.

Lemma candidate_paths_witness :
  drop_last_segment "data.attributes.hp.max" = "data.attributes.hp"
  /\ drop_last_two_segments "data.attributes.hp.max" = "data.attributes".
Proof.
  destruct (candidate_paths "data.attributes" "hp" "max") as (H1 & H2 & _).
  - split; [discriminate|repeat constructor].
  - split; [discriminate|repeat constructor].
  - split; [exact H1|exact H2].
Defined.

Lemma feat_level_from_location_witness : entry_level toughness = JNum 3.
Proof.
  apply (proj1 (proj2 (feat_level_from_location toughness eq_refl))
           "general" "3" eq_refl).
  split; [discriminate|repeat constructor].
Defined.

Lemma explicit_priority_ignores_mode_witness :
  (@constructor plain
     {| src_path := JStr hp_max; src_value := JNum 1; src_mode := JStr "subtract";
        src_priority := JNum 5; src_phase := JUndefined; src_predicate := None |}
     toughness (world (sheet (JNum 20) (JArr [])))).1.(data).(priority) = JNum 5.
Proof.
  apply (@explicit_priority_ignores_mode plain
           {| src_path := JStr hp_max; src_value := JNum 1;
              src_mode := JStr "subtract"; src_priority := JNum 5;
              src_phase := JUndefined; src_predicate := None |}
           toughness (world (sheet (JNum 20) (JArr []))) (JStr "add"));
    discriminate.
Defined.

Lemma default_phase_runs_with_active_effects_witness :
  @beforePrepareData plain (element "add" 20 hp_max (JNum 5))
    (world (sheet (JNum 20) (JArr [])))
  = Some (element "add" 20 hp_max (JNum 5), world (sheet (JNum 20) (JArr []))).
Proof.
  apply (proj2 (@default_phase_runs_with_active_effects plain
                  (directive "add" hp_max (JNum 5)) toughness
                  (world (sheet (JNum 20) (JArr []))) (or_introl eq_refl))
           (world (sheet (JNum 20) (JArr [])))).
Defined.

Lemma hooks_exclusive_witness :
  @call plain AfterPrepareData (element "add" 20 hp_max (JNum 5))
    (world (sheet (JNum 20) (JArr [])))
  = Some (element "add" 20 hp_max (JNum 5), world (sheet (JNum 20) (JArr [])))
  \/ @call plain BeforePrepareData (element "add" 20 hp_max (JNum 5))
       (world (sheet (JNum 20) (JArr [])))
     = Some (element "add" 20 hp_max (JNum 5), world (sheet (JNum 20) (JArr []))).
Proof. apply hooks_exclusive. discriminate. Defined.


Lemma applyAELike_world_witness :
  exists r,
    @applyAELike plain (element "multiply" 10 hp_max (JStr "two"))
      (world (sheet (JNum 20) (JArr []))) = Some r
    /\ (r.2 = world (sheet (JNum 20) (JArr []))
        \/ r.2 = warn r.1 (world (sheet (JNum 20) (JArr []))) "path"
        \/ exists (p : string) (v : JsValue),
             @resolved_path plain (element "multiply" 10 hp_max (JStr "two"))
               (world (sheet (JNum 20) (JArr []))) = Some p
             /\ r.2.(actor).(actor_data)
                = @setProperty plain (sheet (JNum 20) (JArr [])) p v
             /\ r.2.(console) = []).
Proof.
  eexists. split; [reflexivity|].
  apply (@applyAELike_world plain (element "multiply" 10 hp_max (JStr "two"))
           (world (sheet (JNum 20) (JArr [])))).
  reflexivity.
Defined.

Lemma arithmetic_mismatch_warns_witness :
  @applyAELike plain (element "upgrade" 40 hp_max (JNum 3))
    (world (sheet (JStr "many") (JArr [])))
  = Some (element "upgrade" 40 hp_max (JNum 3),
          warn (element "upgrade" 40 hp_max (JNum 3))
               (world (sheet (JStr "many") (JArr []))) "path").
Proof.
  apply (@arithmetic_mismatch_warns plain (element "upgrade" 40 hp_max (JNum 3))
           (world (sheet (JStr "many") (JArr []))) hp_max Upgrade).
  - repeat split; reflexivity.
  - reflexivity.
  - reflexivity.
  - left. discriminate.
Defined.


Lemma downgrade_upgrade_bounds_witness :
  exists w',
    @applyAELike plain (element "downgrade" 30 hp_max (JNum 2))
      (world (sheet (JNum 5) (JArr [])))
    = Some (element "downgrade" 30 hp_max (JNum 2), w')
    /\ exists v, Fixture.get w'.(actor).(actor_data) hp_max = JNum v
                 /\ (v <=? 5)%float = true /\ (v <=? 2)%float = true.
Proof.
  destruct (@downgrade_upgrade_bounds plain (element "downgrade" 30 hp_max (JNum 2))
              (world (sheet (JNum 5) (JArr []))) hp_max Downgrade 2%float)
    as (w' & v & Happ & Htree & _ & Hbounds).
  - repeat split; reflexivity.
  - reflexivity.
  - by left.
  - reflexivity.
  - reflexivity.
  - exists w'. split; [exact Happ|]. exists v. rewrite Htree.
    split; [by apply Fixture_get_set|].
    by destruct (Hbounds eq_refl eq_refl) as (_ & Hdown & _); apply Hdown.
Defined.


Lemma logChange_appends_witness :
  exists w',
    logChange (element "add" 20 hp_max (JNum 5))
      (world (sheet (JNum 25) (JArr []))) (JNum 5) = Some w'
    /\ exists added,
         default [] (w'.(actor).(autoChanges) !! hp_max) = [] ++ added
         /\ (length added <= 1)%nat.
Proof.
  eexists. split; [reflexivity|].
  destruct (logChange_appends (element "add" 20 hp_max (JNum 5))
              (world (sheet (JNum 25) (JArr []))) _ (JNum 5) hp_max eq_refl)
    as (added & Hadded & Hlen & _).
  exists added. split; [exact Hadded|exact Hlen].
Defined.


Lemma stored_path_is_stable_witness :
  exists r,
    @applyAELike plain (element "add" 20 hp_max (JNum 5))
      (world (sheet (JNum 20) (JArr []))) = Some r
    /\ r.1.(data).(path) = JStr hp_max.
Proof.
  destruct (@stored_path_is_stable plain (element "add" 20 hp_max (JNum 5)) hp_max
              eq_refl (fun _ => eq_refl) (world (sheet (JNum 20) (JArr []))))
    as (r & Happ & Hpath & _).
  exists r. split; [exact Happ|exact Hpath].
Defined.

Lemma unresolved_path_sticks_witness :
  @call unresolving OnApplyActiveEffects
    (element "add" 20 "data.attributes.undefined.max" (JNum 5))
    (world (sheet (JNum 20) (JArr [])))
  = Some (element "add" 20 "data.attributes.undefined.max" (JNum 5),
          world (sheet (JNum 20) (JArr []))).
Proof.
  apply (proj2 (proj2 (proj2 (@unresolved_path_sticks unresolving
           (element "add" 20 "data.attributes.{item|flags.pf2e.stat}.max" (JNum 5))
           (world (sheet (JNum 20) (JArr []))) "data.attributes.undefined.max"
           eq_refl eq_refl eq_refl (fun _ => eq_refl))) [])).
Defined.

End FurtherRuns.
